(** * Jaeger propagator: trace-header and baggage-header codec

    A shallow embedding of
    [packages/opentelemetry-propagator-jaeger/src/JaegerPropagator.ts]
    together with the ECMAScript built-ins it calls
    ([encodeURIComponent], [decodeURIComponent], [String.prototype.split],
    [padStart], [substring], [parseInt], [Number.prototype.toString(16)])
    and the small part of [@opentelemetry/api] it consumes (immutable
    contexts, baggage, text-map getter and setter).

    ECMAScript strings are sequences of UTF-16 code units; they are modelled
    as lists of [N], one element per code unit.  A thrown [URIError] is an
    explicit [Throw] result. *)

From Stdlib Require Import List NArith ZArith Lia Bool String Ascii Arith.
Import ListNotations.

Local Open Scope N_scope.

(** ** Results of fallible built-ins *)

Inductive Error : Type := URIError.

Inductive Result (A : Type) : Type :=
| Ok (a : A)
| Throw (e : Error).

Arguments Ok {A} a.
Arguments Throw {A} e.

Definition bindR {A B : Type} (r : Result A) (k : A -> Result B) : Result B :=
  match r with
  | Ok a => k a
  | Throw e => Throw e
  end.

Notation "x <-- r ;; k" := (bindR r (fun x => k))
  (at level 61, r at next level, right associativity).

(** ** ECMAScript strings *)

Definition jsstring : Type := list N.

(** Code units of an ASCII literal. *)
Definition lit (s : string) : jsstring :=
  map N_of_ascii (list_ascii_of_string s).

Fixpoint eqstr (a b : jsstring) : bool :=
  match a, b with
  | [], [] => true
  | x :: a', y :: b' => (x =? y) && eqstr a' b'
  | _, _ => false
  end.

Module JS.

(** *** Character classes *)

Definition isDigit (c : N) : bool := (48 <=? c) && (c <=? 57).
Definition isUpperAlpha (c : N) : bool := (65 <=? c) && (c <=? 90).
Definition isLowerAlpha (c : N) : bool := (97 <=? c) && (c <=? 122).

(** Value of a hexadecimal digit, either case. *)
Definition hexVal (c : N) : option N :=
  if isDigit c then Some (c - 48)
  else if (65 <=? c) && (c <=? 70) then Some (c - 55)
  else if (97 <=? c) && (c <=? 102) then Some (c - 87)
  else None.

Definition isHexDigit (c : N) : bool :=
  match hexVal c with Some _ => true | None => false end.

Definition hexUpper (d : N) : N := if d <? 10 then 48 + d else 55 + d.
Definition hexLower (d : N) : N := if d <? 10 then 48 + d else 87 + d.

(** uriUnreserved: alphanumerics and the marks  - _ . ! ~ * ' ( )  *)
Definition uriUnreserved (c : N) : bool :=
  isDigit c || isUpperAlpha c || isLowerAlpha c
  || (c =? 45) || (c =? 95) || (c =? 46) || (c =? 33) || (c =? 126)
  || (c =? 42) || (c =? 39) || (c =? 40) || (c =? 41).

Definition isHighSurrogate (c : N) : bool := (0xD800 <=? c) && (c <=? 0xDBFF).
Definition isLowSurrogate (c : N) : bool := (0xDC00 <=? c) && (c <=? 0xDFFF).

(** *** UTF-8 *)

Definition utf8Encode (cp : N) : list N :=
  if cp <? 0x80 then [cp]
  else if cp <? 0x800 then [0xC0 + cp / 64; 0x80 + cp mod 64]
  else if cp <? 0x10000 then
    [0xE0 + cp / 4096; 0x80 + (cp / 64) mod 64; 0x80 + cp mod 64]
  else
    [0xF0 + cp / 262144; 0x80 + (cp / 4096) mod 64;
     0x80 + (cp / 64) mod 64; 0x80 + cp mod 64].

Definition pctEncodeByte (b : N) : jsstring :=
  [37; hexUpper (b / 16); hexUpper (b mod 16)].

Definition pctEncode (bytes : list N) : jsstring :=
  flat_map pctEncodeByte bytes.

(** UTF16SurrogatePairToCodePoint *)
Definition surrogatePairToCodePoint (hi lo : N) : N :=
  (hi - 0xD800) * 0x400 + (lo - 0xDC00) + 0x10000.

(** *** encodeURIComponent (ECMA-262, Encode with the unreserved set)

    Unreserved code units are copied.  Any other code unit starts a code
    point: a lone surrogate throws a URIError, a surrogate pair is combined,
    and the UTF-8 octets of the code point are written as %XX with upper-case
    digits. *)
Fixpoint encodeURIComponent (s : jsstring) : Result jsstring :=
  match s with
  | [] => Ok []
  | c :: rest =>
      if uriUnreserved c then
        r <-- encodeURIComponent rest ;; Ok (c :: r)
      else if isLowSurrogate c then Throw URIError
      else if isHighSurrogate c then
        match rest with
        | [] => Throw URIError
        | c2 :: rest' =>
            if isLowSurrogate c2 then
              r <-- encodeURIComponent rest' ;;
              Ok (pctEncode (utf8Encode (surrogatePairToCodePoint c c2)) ++ r)
            else Throw URIError
        end
      else
        r <-- encodeURIComponent rest ;; Ok (pctEncode (utf8Encode c) ++ r)
  end.

(** String.prototype.isWellFormed: no lone surrogate. *)
Fixpoint isWellFormed (s : jsstring) : bool :=
  match s with
  | [] => true
  | c :: rest =>
      if isLowSurrogate c then false
      else if isHighSurrogate c then
        match rest with
        | [] => false
        | c2 :: rest' => isLowSurrogate c2 && isWellFormed rest'
        end
      else isWellFormed rest
  end.

(** *** decodeURIComponent (ECMA-262, Decode with an empty reserved set)

    The algorithm is split in two passes with the same outcome: [unescape]
    turns every %XX into an octet and throws when a '%' is not followed by two
    hexadecimal digits; [utf8Decode] turns octet runs into code units and
    throws on anything that is not a valid UTF-8 encoding of a code point.
    Every failure of the original single pass is a URIError, so the two-pass
    form returns the same result on every input. *)
Inductive Tok : Type :=
| Lit (c : N)
| Oct (b : N).

Fixpoint unescape (s : jsstring) : Result (list Tok) :=
  match s with
  | [] => Ok []
  | c :: rest =>
      if c =? 37 then
        match rest with
        | h1 :: h2 :: rest' =>
            match hexVal h1, hexVal h2 with
            | Some a, Some b =>
                ts <-- unescape rest' ;; Ok (Oct (16 * a + b) :: ts)
            | _, _ => Throw URIError
            end
        | _ => Throw URIError
        end
      else
        ts <-- unescape rest ;; Ok (Lit c :: ts)
  end.

Definition isCont (b : N) : bool := (0x80 <=? b) && (b <? 0xC0).

Definition isSurrogate (c : N) : bool := (0xD800 <=? c) && (c <=? 0xDFFF).

(** UTF-16 encoding of a supplementary code point. *)
Definition supplementaryUnits (cp : N) : jsstring :=
  [0xD800 + (cp - 0x10000) / 0x400; 0xDC00 + (cp - 0x10000) mod 0x400].

Fixpoint utf8Decode (ts : list Tok) : Result jsstring :=
  match ts with
  | [] => Ok []
  | Lit c :: r => s <-- utf8Decode r ;; Ok (c :: s)
  | Oct b :: r =>
      if b <? 0x80 then s <-- utf8Decode r ;; Ok (b :: s)
      else if b <? 0xC0 then Throw URIError
      else if b <? 0xE0 then
        match r with
        | Oct b2 :: r' =>
            let cp := (b - 0xC0) * 64 + (b2 - 0x80) in
            if isCont b2 && (0x80 <=? cp) then
              s <-- utf8Decode r' ;; Ok (cp :: s)
            else Throw URIError
        | _ => Throw URIError
        end
      else if b <? 0xF0 then
        match r with
        | Oct b2 :: Oct b3 :: r' =>
            let cp := (b - 0xE0) * 4096 + (b2 - 0x80) * 64 + (b3 - 0x80) in
            if isCont b2 && isCont b3 && (0x800 <=? cp)
               && negb (isSurrogate cp) then
              s <-- utf8Decode r' ;; Ok (cp :: s)
            else Throw URIError
        | _ => Throw URIError
        end
      else if b <? 0xF8 then
        match r with
        | Oct b2 :: Oct b3 :: Oct b4 :: r' =>
            let cp := (b - 0xF0) * 262144 + (b2 - 0x80) * 4096
                      + (b3 - 0x80) * 64 + (b4 - 0x80) in
            if isCont b2 && isCont b3 && isCont b4
               && (0x10000 <=? cp) && (cp <=? 0x10FFFF) then
              s <-- utf8Decode r' ;; Ok (supplementaryUnits cp ++ s)
            else Throw URIError
        | _ => Throw URIError
        end
      else Throw URIError
  end.

Definition decodeURIComponent (s : jsstring) : Result jsstring :=
  ts <-- unescape s ;; utf8Decode ts.

(** *** String.prototype.split with a one-code-unit separator *)
Fixpoint split (sep : N) (s : jsstring) : list jsstring :=
  match s with
  | [] => [[]]
  | c :: rest =>
      if c =? sep then [] :: split sep rest
      else
        match split sep rest with
        | h :: t => (c :: h) :: t
        | [] => [[c]]
        end
  end.

(** *** String.prototype.padStart with a one-code-unit filler *)
Definition padStart (targetLength : nat) (fill : N) (s : jsstring) : jsstring :=
  repeat fill (targetLength - List.length s) ++ s.

(** *** String.prototype.substring(start) *)
Definition substring (start : nat) (s : jsstring) : jsstring := skipn start s.

(** *** Number.prototype.toString(16) on a non-negative integer *)
Fixpoint toHexDigits (fuel : nat) (n : N) (acc : jsstring) : jsstring :=
  match fuel with
  | O => hexLower (n mod 16) :: acc
  | S fuel' =>
      if n <? 16 then hexLower n :: acc
      else toHexDigits fuel' (n / 16) (hexLower (n mod 16) :: acc)
  end.

Definition toString16 (n : N) : jsstring :=
  toHexDigits (N.to_nat (N.size n)) n [].

(** *** Numbers as far as the propagator meets them *)
Inductive Number : Type :=
| NaN
| Int (neg : bool) (n : N).

(** WhiteSpace and LineTerminator code units trimmed by [parseInt]. *)
Definition isStrWhiteSpace (c : N) : bool :=
  ((9 <=? c) && (c <=? 13)) || (c =? 32) || (c =? 0xA0) || (c =? 0x1680)
  || ((0x2000 <=? c) && (c <=? 0x200A)) || (c =? 0x2028) || (c =? 0x2029)
  || (c =? 0x202F) || (c =? 0x205F) || (c =? 0x3000) || (c =? 0xFEFF).

Fixpoint trimStart (s : jsstring) : jsstring :=
  match s with
  | c :: rest => if isStrWhiteSpace c then trimStart rest else s
  | [] => []
  end.

(** Value of a digit in radix [R] (10 or 16), if it is one. *)
Definition digitVal (R : N) (c : N) : option N :=
  match hexVal c with
  | Some d => if d <? R then Some d else None
  | None => None
  end.

(** Longest prefix of radix-[R] digits, read as an integer; [None] when the
    prefix is empty. *)
Fixpoint digitsPrefix (R : N) (s : jsstring) (acc : option N) : option N :=
  match s with
  | [] => acc
  | c :: rest =>
      match digitVal R c with
      | Some d =>
          digitsPrefix R rest
            (Some (match acc with Some a => R * a + d | None => d end))
      | None => acc
      end
  end.

(** parseInt(string) with the radix argument omitted: leading white space
    and one sign are skipped, a 0x or 0X prefix selects radix 16, otherwise
    the radix is 10.  The integer is kept exact (the source only calls it on
    two-character strings, far below the range where doubles round). *)
Definition parseInt (s : jsstring) : Number :=
  let s1 := trimStart s in
  let '(neg, s2) :=
    match s1 with
    | 45 :: r => (true, r)
    | 43 :: r => (false, r)
    | _ => (false, s1)
    end in
  let '(R, s3) :=
    match s2 with
    | 48 :: 120 :: r => (16, r)
    | 48 :: 88 :: r => (16, r)
    | _ => (10, s2)
    end in
  match digitsPrefix R s3 None with
  | Some n => Int neg n
  | None => NaN
  end.

(** [x & 1]: ToInt32 sends NaN to 0 and keeps the parity of an integer. *)
Definition bitAnd1 (x : Number) : N :=
  match x with
  | NaN => 0
  | Int _ n => N.land n 1
  end.

(** *** Regular-expression helpers

    Without the u flag, the i flag compares code units after Canonicalize:
    an ASCII pattern character is matched by its two ASCII cases only. *)
Definition toUpperAscii (c : N) : N := if isLowerAlpha c then c - 32 else c.

Definition isLineTerminator (c : N) : bool :=
  (c =? 10) || (c =? 13) || (c =? 0x2028) || (c =? 0x2029).

(** Match [pat] at the start of [s] ignoring ASCII case; the unmatched rest
    of [s] on success. *)
Fixpoint stripPrefixIgnoreCase (pat s : jsstring) : option jsstring :=
  match pat, s with
  | [], _ => Some s
  | p :: pat', c :: s' =>
      if toUpperAscii c =? toUpperAscii p then stripPrefixIgnoreCase pat' s'
      else None
  | _ :: _, [] => None
  end.

End JS.

(** ** The part of [@opentelemetry/api] and [@opentelemetry/core] in use

    These packages are dependencies, not part of the propagator; they are
    modelled by their documented behaviour.  Contexts and baggage are
    immutable objects: every setter returns a new object.  Object identity of
    contexts is kept in [ctxId]; new objects take the next free identity from
    an allocation counter threaded through the code. *)

Record SpanContext : Type := mkSpanContext {
  traceId : jsstring;
  spanId : jsstring;
  isRemote : bool;
  traceFlags : N
}.

Definition TraceFlags_NONE : N := 0.
Definition TraceFlags_SAMPLED : N := 1.

Record BaggageEntry : Type := mkEntry {
  value : jsstring;
  metadata : option jsstring
}.

(** A baggage wraps a [Map]: unique keys, kept in insertion order. *)
Definition Baggage : Type := list (jsstring * BaggageEntry).

Definition createBaggage : Baggage := [].

Definition getAllEntries (b : Baggage) : list (jsstring * BaggageEntry) := b.

(** [Map.prototype.set] on a copy: an existing key keeps its position. *)
Fixpoint setEntry (b : Baggage) (key : jsstring) (entry : BaggageEntry) : Baggage :=
  match b with
  | [] => [(key, entry)]
  | (k, e) :: rest =>
      if eqstr k key then (k, entry) :: rest
      else (k, e) :: setEntry rest key entry
  end.

Record Context : Type := mkContext {
  ctxId : nat;
  ctxSpanContext : option SpanContext;
  ctxBaggage : option Baggage;
  ctxSuppressTracing : bool
}.

Definition getSpanContext (c : Context) : option SpanContext := ctxSpanContext c.
Definition getBaggage (c : Context) : option Baggage := ctxBaggage c.
Definition isTracingSuppressed (c : Context) : bool := ctxSuppressTracing c.

(** Computations that may allocate objects and may throw. *)
Definition Alloc (A : Type) : Type := nat -> Result (A * nat).

Definition ret {A : Type} (a : A) : Alloc A := fun next => Ok (a, next).

Definition bindA {A B : Type} (m : Alloc A) (k : A -> Alloc B) : Alloc B :=
  fun next =>
    match m next with
    | Ok (a, next') => k a next'
    | Throw e => Throw e
    end.

Definition liftR {A : Type} (r : Result A) : Alloc A :=
  fun next =>
    match r with
    | Ok a => Ok (a, next)
    | Throw e => Throw e
    end.

Notation "x <~ m ;; k" := (bindA m (fun x => k))
  (at level 61, m at next level, right associativity).

Definition setSpanContext (c : Context) (sc : SpanContext) : Alloc Context :=
  fun next =>
    Ok (mkContext next (Some sc) (ctxBaggage c) (ctxSuppressTracing c), S next).

Definition setBaggage (c : Context) (b : Baggage) : Alloc Context :=
  fun next =>
    Ok (mkContext next (ctxSpanContext c) (Some b) (ctxSuppressTracing c), S next).

(** What a getter hands back for a header: [string | string[] | undefined]. *)
Inductive HeaderValue : Type :=
| HUndefined
| HString (s : jsstring)
| HArray (l : list jsstring).

Record TextMapGetter (Carrier : Type) : Type := mkGetter {
  get : Carrier -> jsstring -> HeaderValue;
  keys : Carrier -> list jsstring
}.

(** A setter mutates the carrier; the updated carrier is returned. *)
Record TextMapSetter (Carrier : Type) : Type := mkSetter {
  set : Carrier -> jsstring -> jsstring -> Carrier
}.

Arguments get {Carrier} _ _ _.
Arguments keys {Carrier} _ _.
Arguments set {Carrier} _ _ _ _.

(** ** JaegerPropagator.ts *)

Definition UBER_TRACE_ID_HEADER : jsstring := lit "uber-trace-id".
Definition UBER_BAGGAGE_HEADER_PREFIX : jsstring := lit "uberctx".

(** [UBER_BAGGAGE_HEADER_REGEX.test(key)] for [/^uberctx-(.+)/i]: the prefix in
    any case, then at least one code unit that is not a line terminator. *)
Definition UBER_BAGGAGE_HEADER_REGEX_test (key : jsstring) : bool :=
  match JS.stripPrefixIgnoreCase (lit "uberctx-") key with
  | Some (c :: _) => negb (JS.isLineTerminator c)
  | _ => false
  end.

(** [flags.match(/^[0-9a-f]{2}$/i)] as a truth value. *)
Definition flagsRegexMatch (flags : jsstring) : bool :=
  match flags with
  | [x; y] => JS.isHexDigit x && JS.isHexDigit y
  | _ => false
  end.

Record JaegerPropagator : Type := mkPropagator {
  _jaegerTraceHeader : jsstring
}.

(** [customTraceHeader || UBER_TRACE_ID_HEADER]: absent and empty are falsy. *)
Definition newJaegerPropagator (customTraceHeader : option jsstring) : JaegerPropagator :=
  mkPropagator
    match customTraceHeader with
    | Some (c :: h) => c :: h
    | _ => UBER_TRACE_ID_HEADER
    end.

Definition deserializeSpanContext (serializedString : jsstring)
  : Result (option SpanContext) :=
  decoded <-- JS.decodeURIComponent serializedString ;;
  let headers := JS.split 58 decoded in
  match headers with
  | [_traceId; spanId; _; flags] =>
      let traceId := JS.padStart 32 48 _traceId in
      let traceFlags :=
        if flagsRegexMatch flags then JS.bitAnd1 (JS.parseInt flags) else 1 in
      Ok (Some (mkSpanContext traceId spanId true traceFlags))
  | _ => Ok None
  end.

(** The flags field and the header value built in [inject]. *)
Definition traceFlagsField (spanContext : SpanContext) : jsstring :=
  48 :: JS.toString16
          (if traceFlags spanContext =? 0 then TraceFlags_NONE
           else traceFlags spanContext).

Definition serializeSpanContext (spanContext : SpanContext) : jsstring :=
  traceId spanContext ++ [58] ++ spanId spanContext ++ lit ":0:"
  ++ traceFlagsField spanContext.

Definition firstValue (v : HeaderValue) : option jsstring :=
  match v with
  | HUndefined => None
  | HString s => Some s
  | HArray l => hd_error l
  end.

Definition baggageHeaderName (key : jsstring) : jsstring :=
  UBER_BAGGAGE_HEADER_PREFIX ++ [45] ++ key.

(** The merge loop of [extract]. *)
Fixpoint mergeBaggageValues (baggageValues : list (jsstring * option jsstring))
  (currentBaggage : Baggage) : Result Baggage :=
  match baggageValues with
  | [] => Ok currentBaggage
  | (_, None) :: rest => mergeBaggageValues rest currentBaggage
  | (key, Some v) :: rest =>
      d <-- JS.decodeURIComponent v ;;
      mergeBaggageValues rest (setEntry currentBaggage key (mkEntry d None))
  end.

Section Propagator.

Variable Carrier : Type.
Variable getter : TextMapGetter Carrier.
Variable setter : TextMapSetter Carrier.
Variable this : JaegerPropagator.

(** The baggage loop of [inject]: the carrier keeps the headers written before
    a throwing [encodeURIComponent]. *)
Fixpoint injectEntries (entries : list (jsstring * BaggageEntry))
  (carrier : Carrier) : Result unit * Carrier :=
  match entries with
  | [] => (Ok tt, carrier)
  | (key, entry) :: rest =>
      match JS.encodeURIComponent (value entry) with
      | Ok v => injectEntries rest (set setter carrier (baggageHeaderName key) v)
      | Throw e => (Throw e, carrier)
      end
  end.

Definition inject (context : Context) (carrier : Carrier) : Result unit * Carrier :=
  let spanContext := getSpanContext context in
  let baggage := getBaggage context in
  let carrier1 :=
    match spanContext with
    | Some sc =>
        if Bool.eqb (isTracingSuppressed context) false then
          set setter carrier (_jaegerTraceHeader this) (serializeSpanContext sc)
        else carrier
    | None => carrier
    end in
  match baggage with
  | Some b => injectEntries (getAllEntries b) carrier1
  | None => (Ok tt, carrier1)
  end.

Definition baggageValuesOf (carrier : Carrier) : list (jsstring * option jsstring) :=
  map (fun key =>
         (JS.substring (List.length UBER_BAGGAGE_HEADER_PREFIX + 1) key,
          firstValue (get getter carrier key)))
      (filter UBER_BAGGAGE_HEADER_REGEX_test (keys getter carrier)).

Definition extract (context : Context) (carrier : Carrier) : Alloc Context :=
  let uberTraceId := firstValue (get getter carrier (_jaegerTraceHeader this)) in
  let baggageValues := baggageValuesOf carrier in
  newContext <~
    match uberTraceId with
    | Some s =>
        spanContext <~ liftR (deserializeSpanContext s) ;;
        match spanContext with
        | Some sc => setSpanContext context sc
        | None => ret context
        end
    | None => ret context
    end ;;
  if Nat.eqb (List.length baggageValues) 0 then ret newContext
  else
    currentBaggage <~
      liftR (mergeBaggageValues baggageValues
               (match getBaggage context with
                | Some b => b
                | None => createBaggage
                end)) ;;
    setBaggage newContext currentBaggage.

Definition fields : list jsstring := [_jaegerTraceHeader this].

End Propagator.

Arguments injectEntries {Carrier} setter entries carrier.
Arguments inject {Carrier} setter this context carrier.
Arguments baggageValuesOf {Carrier} getter carrier.
Arguments extract {Carrier} getter this context carrier _%_nat.

(** ** Concrete carriers

    A plain object ([{}]) used with [defaultTextMapGetter] and
    [defaultTextMapSetter] of the API ([carrier[key] = value],
    [carrier[key]], [Object.keys(carrier)]).  The list holds the own
    properties in the order [Object.keys] reports them: array indices first,
    in ascending numeric order, then the other names in creation order.
    Properties inherited from [Object.prototype] are functions or, for
    "__proto__", an object: never a string or an array, so a lookup that
    misses the own properties is read by [extract] as undefined. *)
Definition ObjectCarrier : Type := list (jsstring * HeaderValue).

Definition decimalValue (s : jsstring) : N :=
  fold_left (fun a c => 10 * a + (c - 48)) s 0.

(** The numeric value of a property name that is an array index: a decimal
    numeral without a leading zero (except "0" itself) below 2^32 - 1. *)
Definition arrayIndex (key : jsstring) : option N :=
  match key with
  | [] => None
  | c :: rest =>
      if forallb JS.isDigit key
         && (negb (c =? 48) || Nat.eqb (List.length rest) 0)
         && (decimalValue key <? 4294967295)
      then Some (decimalValue key)
      else None
  end.

(** Whether a new property [key] is listed before the existing property [k]. *)
Definition listedBefore (key k : jsstring) : bool :=
  match arrayIndex key with
  | Some n =>
      match arrayIndex k with
      | Some m => n <? m
      | None => true
      end
  | None => false
  end.

Definition objHas (o : ObjectCarrier) (key : jsstring) : bool :=
  existsb (fun kx => eqstr (fst kx) key) o.

Fixpoint objUpdate (o : ObjectCarrier) (key : jsstring) (v : HeaderValue)
  : ObjectCarrier :=
  match o with
  | [] => []
  | (k, x) :: rest =>
      if eqstr k key then (k, v) :: rest else (k, x) :: objUpdate rest key v
  end.

Fixpoint objInsert (o : ObjectCarrier) (key : jsstring) (v : HeaderValue)
  : ObjectCarrier :=
  match o with
  | [] => [(key, v)]
  | (k, x) :: rest =>
      if listedBefore key k then (key, v) :: (k, x) :: rest
      else (k, x) :: objInsert rest key v
  end.

Fixpoint objGet (o : ObjectCarrier) (key : jsstring) : HeaderValue :=
  match o with
  | [] => HUndefined
  | (k, v) :: rest => if eqstr k key then v else objGet rest key
  end.

(** Assignment to an own property: an existing one keeps its place, a new
    one takes the place its name gives it. *)
Definition objSet (o : ObjectCarrier) (key : jsstring) (v : HeaderValue)
  : ObjectCarrier :=
  if objHas o key then objUpdate o key v else objInsert o key v.

Definition defaultTextMapGetter : TextMapGetter ObjectCarrier :=
  mkGetter ObjectCarrier objGet (map fst).

(** [carrier[key] = value] with a string value: for "__proto__" the
    inherited setter ignores a value that is neither an object nor null, so
    nothing is stored. *)
Definition defaultTextMapSetter : TextMapSetter ObjectCarrier :=
  mkSetter ObjectCarrier
    (fun c k v => if eqstr k (lit "__proto__") then c else objSet c k (HString v)).

(** A setter that only records the calls made to it, in order. *)
Definition WriteLog : Type := list (jsstring * jsstring).

Definition recordingSetter : TextMapSetter WriteLog :=
  mkSetter WriteLog (fun log k v => log ++ [(k, v)]).

(** Replaying a list of [set] calls on a carrier. *)
Definition applyWrites {Carrier : Type} (setter : TextMapSetter Carrier)
  (writes : WriteLog) (carrier : Carrier) : Carrier :=
  fold_left (fun c kv => set setter c (fst kv) (snd kv)) writes carrier.

(** The percent-encoded value when [encodeURIComponent] returns one. *)
Definition encodedValue (entry : BaggageEntry) : jsstring :=
  match JS.encodeURIComponent (value entry) with
  | Ok v => v
  | Throw _ => []
  end.

Definition baggageWrites (entries : list (jsstring * BaggageEntry)) : WriteLog :=
  map (fun ke => (baggageHeaderName (fst ke), encodedValue (snd ke))) entries.

Definition entriesOf (b : option Baggage) : list (jsstring * BaggageEntry) :=
  match b with
  | Some b => getAllEntries b
  | None => []
  end.

(** UTF16EncodeCodePoint *)
Definition codePointUnits (cp : N) : jsstring :=
  if cp <? 0x10000 then [cp] else JS.supplementaryUnits cp.

(** Every element is a 16-bit code unit: the typing invariant of strings. *)
Definition validUnits (s : jsstring) : bool := forallb (fun c => c <? 0x10000) s.

(** The flags field read the way the specification words it: the value of
    its leading decimal digits (not a number when it has none), then [& 1]
    (not-a-number counts as 0). *)
Definition decimalRadixValue (flags : jsstring) : option N :=
  match flags with
  | [x; y] =>
      if JS.isDigit x then
        if JS.isDigit y then Some (10 * (x - 48) + (y - 48)) else Some (x - 48)
      else None
  | _ => None
  end.

Definition specTraceFlags (flags : jsstring) : N :=
  match decimalRadixValue flags with
  | Some n => N.land n 1
  | None => 0
  end.

(** The code units of the hexadecimal digits, both cases. *)
Definition hexChars : list N :=
  [48; 49; 50; 51; 52; 53; 54; 55; 56; 57;
   65; 66; 67; 68; 69; 70; 97; 98; 99; 100; 101; 102].

(** Value of a string of hexadecimal digits, most significant first. *)
Definition readHex (s : jsstring) : N :=
  fold_left (fun a c => 16 * a + match JS.hexVal c with Some d => d | None => 0 end)
            s 0.

Definition isLowerHexChar (c : N) : bool :=
  JS.isDigit c || ((97 <=? c) && (c <=? 102)).

(** The [set] call for the trace header, when [inject] makes it. *)
Definition traceWrites (this : JaegerPropagator) (context : Context) : WriteLog :=
  match getSpanContext context with
  | Some sc =>
      if isTracingSuppressed context then []
      else [(_jaegerTraceHeader this, serializeSpanContext sc)]
  | None => []
  end.

(** The plain object holding exactly the given headers. *)
Definition objectOf (w : WriteLog) : ObjectCarrier :=
  map (fun kv => (fst kv, HString (snd kv))) w.

(** Baggage entries as [extract] rebuilds them: the value only. *)
Definition plainEntries (entries : list (jsstring * BaggageEntry))
  : list (jsstring * BaggageEntry) :=
  map (fun ke => (fst ke, mkEntry (value (snd ke)) None)) entries.

(** Keys that [/^uberctx-(.+)/i] can capture from a header name: non-empty,
    not starting with a line terminator. *)
Definition capturableKey (key : jsstring) : bool :=
  match key with
  | c :: _ => negb (JS.isLineTerminator c)
  | [] => false
  end.

(** [fields.join(":")] for a non-empty array of fields. *)
Fixpoint joinFields (sep : N) (fields : list jsstring) : jsstring :=
  match fields with
  | [] => []
  | [f] => f
  | f :: rest => f ++ sep :: joinFields sep rest
  end.

(** A field that holds neither '%' nor ':'. *)
Definition plainField (f : jsstring) : bool :=
  forallb (fun c => negb (c =? 37) && negb (c =? 58)) f.

(** The traceFlags that come back after [inject] wrote them and
    [deserializeSpanContext] read them. *)
Definition roundTripFlags (fl : N) : N :=
  if fl <? 10 then N.land fl 1 else if fl <? 16 then 0 else 1.

(** [Baggage.getEntry]: the entry stored under a key, if any. *)
Fixpoint getEntry (b : Baggage) (key : jsstring) : option BaggageEntry :=
  match b with
  | [] => None
  | (k, e) :: rest => if eqstr k key then Some e else getEntry rest key
  end.

(** The span context [extract] leaves in the context it returns. *)
Definition extractedSpanContext (header : option jsstring) (context : Context)
  : option SpanContext :=
  match header with
  | Some h =>
      match deserializeSpanContext h with
      | Ok (Some sc) => Some sc
      | _ => getSpanContext context
      end
  | None => getSpanContext context
  end.

(** * Properties *)

Ltac Zify.zify_post_hook ::= Z.to_euclidean_division_equations.

(** ** Sanity checks of the built-ins *)

Example encode_example :
  JS.encodeURIComponent (lit "value 2/$") = Ok (lit "value%202%2F%24").
Proof. reflexivity. Qed.

Example decode_example :
  JS.decodeURIComponent (lit "value%202%2F%24") = Ok (lit "value 2/$").
Proof. reflexivity. Qed.

Example decode_euro :
  JS.decodeURIComponent (lit "%E2%82%AC") = Ok [0x20AC].
Proof. reflexivity. Qed.

Example encode_astral :
  JS.encodeURIComponent [0xD83D; 0xDE00] = Ok (lit "%F0%9F%98%80").
Proof. reflexivity. Qed.

Example decode_astral :
  JS.decodeURIComponent (lit "%f0%9f%98%80") = Ok [0xD83D; 0xDE00].
Proof. reflexivity. Qed.

Example decode_overlong : JS.decodeURIComponent (lit "%C0%80") = Throw URIError.
Proof. reflexivity. Qed.

Example decode_surrogate : JS.decodeURIComponent (lit "%ED%A0%80") = Throw URIError.
Proof. reflexivity. Qed.

Example split_empty : JS.split 58 [] = [[]].
Proof. reflexivity. Qed.

Example split_three : JS.split 58 (lit "a:b:0") = [lit "a"; lit "b"; lit "0"].
Proof. reflexivity. Qed.

Example toString16_255 : JS.toString16 255 = lit "ff".
Proof. reflexivity. Qed.

Example toString16_0 : JS.toString16 0 = lit "0".
Proof. reflexivity. Qed.

Example toString16_4096 : JS.toString16 4096 = lit "1000".
Proof. reflexivity. Qed.

Example parseInt_1f : JS.parseInt (lit "1f") = JS.Int false 1.
Proof. reflexivity. Qed.

Example parseInt_ff : JS.parseInt (lit "ff") = JS.NaN.
Proof. reflexivity. Qed.


Example split_adjacent :
  JS.split 58 (lit "a::b:") = [lit "a"; []; lit "b"; []].
Proof. reflexivity. Qed.

Example padStart_short : JS.padStart 4 48 (lit "ab") = lit "00ab".
Proof. reflexivity. Qed.

Example padStart_long : JS.padStart 4 48 (lit "abcdef") = lit "abcdef".
Proof. reflexivity. Qed.

Example regex_any_case :
  UBER_BAGGAGE_HEADER_REGEX_test (lit "UberCtx-user-id") = true
  /\ UBER_BAGGAGE_HEADER_REGEX_test (lit "uberctx-") = false
  /\ UBER_BAGGAGE_HEADER_REGEX_test (lit "uberctx") = false
  /\ UBER_BAGGAGE_HEADER_REGEX_test (lit "x-uberctx-a") = false.
Proof. repeat split. Qed.

(** The flags examples of the format: "01" is sampled, and so is a field that
    is not two hexadecimal digits. *)
Example decode_flags_01 :
  deserializeSpanContext
    (lit "aaaaaaaaaaaaaaaaaaaaaaaaaaaaaaaa:bbbbbbbbbbbbbbbb:0:01")
  = Ok (Some (mkSpanContext (lit "aaaaaaaaaaaaaaaaaaaaaaaaaaaaaaaa")
                            (lit "bbbbbbbbbbbbbbbb") true 1)).
Proof. reflexivity. Qed.

Example decode_flags_zz :
  deserializeSpanContext
    (lit "aaaaaaaaaaaaaaaaaaaaaaaaaaaaaaaa:bbbbbbbbbbbbbbbb:0:zz")
  = Ok (Some (mkSpanContext (lit "aaaaaaaaaaaaaaaaaaaaaaaaaaaaaaaa")
                            (lit "bbbbbbbbbbbbbbbb") true 1)).
Proof. reflexivity. Qed.

(** A hexadecimal-looking flags field is read in radix 10: "ff" is not a
    number and gives 0, "1f" gives 1. *)
Example decode_flags_ff :
  deserializeSpanContext (lit "a:b:0:ff")
  = Ok (Some (mkSpanContext (lit "0000000000000000000000000000000a")
                            (lit "b") true 0)).
Proof. reflexivity. Qed.

Example decode_short_traceId :
  deserializeSpanContext (lit "5b8aa5a2d2c872e8321cf37308d69df2:1:0:1")
  = Ok (Some (mkSpanContext (lit "5b8aa5a2d2c872e8321cf37308d69df2")
                            (lit "1") true 1)).
Proof. reflexivity. Qed.

Example fields_default :
  fields (newJaegerPropagator None) = [lit "uber-trace-id"]
  /\ fields (newJaegerPropagator (Some [])) = [lit "uber-trace-id"]
  /\ fields (newJaegerPropagator (Some (lit "x-trace"))) = [lit "x-trace"].
Proof. repeat split. Qed.

(** ** Facts about the built-ins *)

Ltac ncases :=
  repeat
    (match goal with
     | |- context [?a <? ?b] => destruct (N.ltb_spec a b)
     | |- context [?a <=? ?b] => destruct (N.leb_spec a b)
     | |- context [?a =? ?b] => destruct (N.eqb_spec a b)
     end; try lia; cbn [andb orb negb]).

Lemma eqstr_refl (a : jsstring) : eqstr a a = true.
Proof.
  induction a as [|x a IH]; cbn; [reflexivity|].
  now rewrite N.eqb_refl, IH.
Qed.

Lemma eqstr_eq (a b : jsstring) : eqstr a b = true <-> a = b.
Proof.
  split.
  - revert b; induction a as [|x a IH]; intros [|y b] H; cbn in H;
      try discriminate; [reflexivity|].
    apply andb_true_iff in H; destruct H as [Hx Hab].
    apply N.eqb_eq in Hx; apply IH in Hab; now subst.
  - intros ->; apply eqstr_refl.
Qed.

Lemma eqstr_neq (a b : jsstring) : a <> b -> eqstr a b = false.
Proof.
  intros H; destruct (eqstr a b) eqn:E; [|reflexivity].
  apply eqstr_eq in E; contradiction.
Qed.

Lemma bindR_Ok {A B : Type} (r : Result A) (k : A -> Result B) (b : B) :
  bindR r k = Ok b -> exists a, r = Ok a /\ k a = Ok b.
Proof. destruct r as [a|e]; cbn; [eauto|discriminate]. Qed.

Lemma not_Ok_Throw {A : Type} (r : Result A) :
  (forall a, r <> Ok a) <-> r = Throw URIError.
Proof.
  split.
  - intros H; destruct r as [a|[]]; [now destruct (H a)|reflexivity].
  - intros -> a; discriminate.
Qed.

Lemma hexVal_hexUpper (d : N) : d < 16 -> JS.hexVal (JS.hexUpper d) = Some d.
Proof.
  intros H; unfold JS.hexVal, JS.hexUpper, JS.isDigit.
  ncases; f_equal; lia.
Qed.

Lemma hexVal_hexLower (d : N) : d < 16 -> JS.hexVal (JS.hexLower d) = Some d.
Proof.
  intros H; unfold JS.hexVal, JS.hexLower, JS.isDigit.
  ncases; f_equal; lia.
Qed.

Lemma unescape_pctEncodeByte (b : N) (s : jsstring) :
  b < 256 ->
  JS.unescape (JS.pctEncodeByte b ++ s)
  = (ts <-- JS.unescape s ;; Ok (JS.Oct b :: ts)).
Proof.
  intros Hb; unfold JS.pctEncodeByte.
  cbn [app JS.unescape N.eqb Pos.eqb].
  rewrite !hexVal_hexUpper by lia.
  replace (16 * (b / 16) + b mod 16) with b by lia.
  reflexivity.
Qed.

Lemma unescape_pctEncode (bytes : list N) (s : jsstring) :
  Forall (fun b => b < 256) bytes ->
  JS.unescape (JS.pctEncode bytes ++ s)
  = (ts <-- JS.unescape s ;; Ok (map JS.Oct bytes ++ ts)).
Proof.
  induction 1 as [|b bytes Hb _ IH]; cbn [JS.pctEncode flat_map map app].
  - destruct (JS.unescape s); reflexivity.
  - rewrite <- app_assoc, unescape_pctEncodeByte by assumption.
    unfold JS.pctEncode in IH; rewrite IH.
    destruct (JS.unescape s); reflexivity.
Qed.

Lemma utf8Encode_bytes (cp : N) :
  cp <= 0x10FFFF -> Forall (fun b => b < 256) (JS.utf8Encode cp).
Proof.
  intros H; unfold JS.utf8Encode.
  ncases; repeat constructor; lia.
Qed.

Lemma utf8Decode_utf8Encode (cp : N) (ts : list JS.Tok) :
  cp <= 0x10FFFF -> JS.isSurrogate cp = false ->
  JS.utf8Decode (map JS.Oct (JS.utf8Encode cp) ++ ts)
  = (s <-- JS.utf8Decode ts ;; Ok (codePointUnits cp ++ s)).
Proof.
  intros Hmax Hsur.
  unfold JS.isSurrogate in Hsur.
  assert (Hs : cp < 0xD800 \/ 0xDFFF < cp).
  { destruct (N.leb_spec 0xD800 cp); [|lia].
    destruct (N.leb_spec cp 0xDFFF); [discriminate|lia]. }
  clear Hsur.
  unfold JS.utf8Encode, codePointUnits.
  destruct (N.ltb_spec cp 0x80) as [H1|H1].
  { cbn [map app JS.utf8Decode].
    destruct (N.ltb_spec cp 0x80); [|lia].
    destruct (N.ltb_spec cp 0x10000); [reflexivity|lia]. }
  destruct (N.ltb_spec cp 0x800) as [H2|H2].
  { cbn [map app JS.utf8Decode]; unfold JS.isCont.
    replace ((0xC0 + cp / 64 - 0xC0) * 64 + (0x80 + cp mod 64 - 0x80))
      with cp by lia.
    ncases. reflexivity. }
  destruct (N.ltb_spec cp 0x10000) as [H3|H3].
  { cbn [map app JS.utf8Decode]; unfold JS.isCont, JS.isSurrogate.
    replace ((0xE0 + cp / 4096 - 0xE0) * 4096
             + (0x80 + (cp / 64) mod 64 - 0x80) * 64
             + (0x80 + cp mod 64 - 0x80)) with cp by lia.
    ncases; reflexivity. }
  cbn [map app JS.utf8Decode]; unfold JS.isCont.
  replace ((0xF0 + cp / 262144 - 0xF0) * 262144
           + (0x80 + (cp / 4096) mod 64 - 0x80) * 4096
           + (0x80 + (cp / 64) mod 64 - 0x80) * 64
           + (0x80 + cp mod 64 - 0x80)) with cp by lia.
  ncases; reflexivity.
Qed.

Lemma uriUnreserved_plain (c : N) :
  JS.uriUnreserved c = true ->
  c <> 37 /\ JS.isLowSurrogate c = false /\ JS.isHighSurrogate c = false.
Proof.
  unfold JS.uriUnreserved, JS.isDigit, JS.isUpperAlpha, JS.isLowerAlpha,
    JS.isLowSurrogate, JS.isHighSurrogate.
  intros H; repeat split.
  - intros ->; discriminate.
  - revert H; ncases; intros; try discriminate; reflexivity.
  - revert H; ncases; intros; try discriminate; reflexivity.
Qed.

Lemma surrogatePair_units (c c2 : N) :
  JS.isHighSurrogate c = true -> JS.isLowSurrogate c2 = true ->
  let cp := JS.surrogatePairToCodePoint c c2 in
  cp <= 0x10FFFF /\ JS.isSurrogate cp = false /\ codePointUnits cp = [c; c2].
Proof.
  unfold JS.isHighSurrogate, JS.isLowSurrogate, JS.isSurrogate,
    JS.surrogatePairToCodePoint, codePointUnits, JS.supplementaryUnits.
  intros H1 H2.
  apply andb_true_iff in H1; destruct H1 as [H1 H1'].
  apply andb_true_iff in H2; destruct H2 as [H2 H2'].
  apply N.leb_le in H1, H1', H2, H2'.
  cbv zeta; repeat split.
  - lia.
  - ncases; reflexivity.
  - ncases. f_equal; [lia|f_equal; lia].
Qed.

Lemma uri_roundtrip_bounded (n : nat) :
  forall s : jsstring,
    (List.length s <= n)%nat ->
    JS.isWellFormed s = true -> validUnits s = true ->
    exists e ts, JS.encodeURIComponent s = Ok e
                 /\ JS.unescape e = Ok ts /\ JS.utf8Decode ts = Ok s.
Proof.
  induction n as [|n IH]; intros s Hlen Hwf Hv.
  { destruct s; [|cbn in Hlen; lia]. exists [], []; auto. }
  destruct s as [|c rest]; [exists [], []; auto|].
  cbn [List.length] in Hlen.
  cbn [validUnits forallb] in Hv; apply andb_true_iff in Hv.
  destruct Hv as [Hc Hv]; apply N.ltb_lt in Hc.
  cbn [JS.encodeURIComponent].
  destruct (JS.uriUnreserved c) eqn:Hun.
  { destruct (uriUnreserved_plain c Hun) as (Hpct & Hlo & Hhi).
    cbn [JS.isWellFormed] in Hwf; rewrite Hlo, Hhi in Hwf.
    destruct (IH rest ltac:(lia) Hwf Hv) as (e & ts & He & Hu & Hd).
    exists (c :: e), (JS.Lit c :: ts); rewrite He; cbn [bindR].
    split; [reflexivity|]; cbn [JS.unescape JS.utf8Decode].
    destruct (N.eqb_spec c 37); [contradiction|].
    rewrite Hu; cbn [bindR]; rewrite Hd; auto. }
  cbn [JS.isWellFormed] in Hwf.
  destruct (JS.isLowSurrogate c) eqn:Hlo; [discriminate|].
  destruct (JS.isHighSurrogate c) eqn:Hhi.
  { destruct rest as [|c2 rest']; [discriminate|].
    apply andb_true_iff in Hwf; destruct Hwf as [Hlo2 Hwf]; rewrite Hlo2.
    cbn [validUnits forallb] in Hv; apply andb_true_iff in Hv.
    destruct Hv as [_ Hv]; cbn [List.length] in Hlen.
    destruct (IH rest' ltac:(lia) Hwf Hv) as (e & ts & He & Hu & Hd).
    destruct (surrogatePair_units c c2 Hhi Hlo2) as (Hmax & Hsur & Hunits).
    rewrite He; cbn [bindR]; eexists; eexists; split; [reflexivity|].
    rewrite unescape_pctEncode by (apply utf8Encode_bytes; exact Hmax).
    rewrite Hu; cbn [bindR]; split; [reflexivity|].
    rewrite utf8Decode_utf8Encode, Hd by assumption.
    cbn [bindR]; now rewrite Hunits. }
  destruct (IH rest ltac:(lia) Hwf Hv) as (e & ts & He & Hu & Hd).
  assert (Hsur : JS.isSurrogate c = false).
  { unfold JS.isSurrogate, JS.isLowSurrogate, JS.isHighSurrogate in *.
    revert Hlo Hhi; ncases; intros; try discriminate; reflexivity. }
  rewrite He; cbn [bindR]; eexists; eexists; split; [reflexivity|].
  rewrite unescape_pctEncode by (apply utf8Encode_bytes; lia).
  rewrite Hu; cbn [bindR]; split; [reflexivity|].
  rewrite utf8Decode_utf8Encode, Hd by (assumption || lia).
  cbn [bindR]; unfold codePointUnits.
  destruct (N.ltb_spec c 0x10000); [reflexivity|lia].
Qed.

(** Percent-encoding then percent-decoding a well-formed string is the
    identity. *)
Lemma decodeURIComponent_encodeURIComponent (s : jsstring) :
  JS.isWellFormed s = true -> validUnits s = true ->
  exists e, JS.encodeURIComponent s = Ok e /\ JS.decodeURIComponent e = Ok s.
Proof.
  intros Hwf Hv.
  destruct (uri_roundtrip_bounded (List.length s) s (le_n _) Hwf Hv)
    as (e & ts & He & Hu & Hd).
  exists e; split; [exact He|].
  unfold JS.decodeURIComponent; now rewrite Hu.
Qed.

Lemma encodeURIComponent_bounded (n : nat) :
  forall s : jsstring,
    (List.length s <= n)%nat ->
    (JS.isWellFormed s = true -> exists e, JS.encodeURIComponent s = Ok e)
    /\ (JS.isWellFormed s = false -> JS.encodeURIComponent s = Throw URIError).
Proof.
  induction n as [|n IH]; intros s Hlen.
  { destruct s; [|cbn in Hlen; lia].
    split; [intros _; exists []; reflexivity|discriminate]. }
  destruct s as [|c rest];
    [split; [intros _; exists []; reflexivity|discriminate]|].
  cbn [List.length] in Hlen.
  cbn [JS.encodeURIComponent JS.isWellFormed].
  destruct (JS.uriUnreserved c) eqn:Hun.
  { destruct (uriUnreserved_plain c Hun) as (_ & Hlo & Hhi).
    rewrite Hlo, Hhi.
    destruct (IH rest ltac:(lia)) as [H1 H2]; split; intros H.
    - destruct (H1 H) as [e ->]; cbn; eauto.
    - rewrite (H2 H); reflexivity. }
  destruct (JS.isLowSurrogate c); [split; [discriminate|reflexivity]|].
  destruct (JS.isHighSurrogate c).
  { destruct rest as [|c2 rest']; [split; [discriminate|reflexivity]|].
    cbn [List.length] in Hlen.
    destruct (JS.isLowSurrogate c2); cbn [andb];
      [|split; [discriminate|reflexivity]].
    destruct (IH rest' ltac:(lia)) as [H1 H2]; split; intros H.
    - destruct (H1 H) as [e ->]; cbn; eauto.
    - rewrite (H2 H); reflexivity. }
  destruct (IH rest ltac:(lia)) as [H1 H2]; split; intros H.
  - destruct (H1 H) as [e ->]; cbn; eauto.
  - rewrite (H2 H); reflexivity.
Qed.

(** [encodeURIComponent] throws exactly on strings with a lone surrogate. *)
Lemma encodeURIComponent_Throw_iff (s : jsstring) :
  JS.encodeURIComponent s = Throw URIError <-> JS.isWellFormed s = false.
Proof.
  destruct (encodeURIComponent_bounded (List.length s) s (le_n _)) as [H1 H2].
  split; [|exact H2].
  intros H; destruct (JS.isWellFormed s); [|reflexivity].
  destruct (H1 eq_refl) as [e He]; congruence.
Qed.

Lemma unescape_plain (s : jsstring) :
  Forall (fun c => c <> 37) s -> JS.unescape s = Ok (map JS.Lit s).
Proof.
  induction 1 as [|c s Hc _ IH]; [reflexivity|].
  cbn [JS.unescape map].
  destruct (N.eqb_spec c 37); [contradiction|].
  now rewrite IH.
Qed.

Lemma utf8Decode_Lit (s : jsstring) : JS.utf8Decode (map JS.Lit s) = Ok s.
Proof.
  induction s as [|c s IH]; [reflexivity|].
  cbn [map JS.utf8Decode]; now rewrite IH.
Qed.

(** A string without '%' percent-decodes to itself. *)
Lemma decodeURIComponent_plain (s : jsstring) :
  Forall (fun c => c <> 37) s -> JS.decodeURIComponent s = Ok s.
Proof.
  intros H; unfold JS.decodeURIComponent.
  rewrite (unescape_plain s H); cbn [bindR]; apply utf8Decode_Lit.
Qed.

Lemma split_nosep (sep : N) (s : jsstring) :
  Forall (fun c => c <> sep) s -> JS.split sep s = [s].
Proof.
  induction 1 as [|c s Hc _ IH]; [reflexivity|].
  cbn [JS.split]; destruct (N.eqb_spec c sep); [contradiction|].
  now rewrite IH.
Qed.

Lemma split_app_sep (sep : N) (a r : jsstring) :
  Forall (fun c => c <> sep) a ->
  JS.split sep (a ++ sep :: r) = a :: JS.split sep r.
Proof.
  induction 1 as [|c a Hc _ IH]; cbn [app JS.split].
  - now rewrite N.eqb_refl.
  - destruct (N.eqb_spec c sep); [contradiction|].
    now rewrite IH.
Qed.

Lemma split_nonempty (sep : N) (s : jsstring) : JS.split sep s <> [].
Proof.
  induction s as [|c s IH]; cbn [JS.split]; [discriminate|].
  destruct (c =? sep); [discriminate|].
  destruct (JS.split sep s); [contradiction|discriminate].
Qed.

Lemma isHexDigit_plain (c : N) :
  JS.isHexDigit c = true -> c <> 37 /\ c <> 58.
Proof.
  unfold JS.isHexDigit, JS.hexVal, JS.isDigit.
  split; intros ->; discriminate.
Qed.

(** ** deserializeSpanContext *)

Lemma deserializeSpanContext_fields (s d a b c f : jsstring) :
  JS.decodeURIComponent s = Ok d -> JS.split 58 d = [a; b; c; f] ->
  deserializeSpanContext s
  = Ok (Some (mkSpanContext (JS.padStart 32 48 a) b true
                (if flagsRegexMatch f then JS.bitAnd1 (JS.parseInt f) else 1))).
Proof.
  intros Hd Hs; unfold deserializeSpanContext.
  rewrite Hd; cbn [bindR]; rewrite Hs; reflexivity.
Qed.

Lemma deserializeSpanContext_Throw_iff (s : jsstring) :
  deserializeSpanContext s = Throw URIError
  <-> JS.decodeURIComponent s = Throw URIError.
Proof.
  unfold deserializeSpanContext.
  destruct (JS.decodeURIComponent s) as [d|[]]; cbn [bindR]; [|tauto].
  split; [|discriminate].
  destruct (JS.split 58 d) as [|a [|b [|c [|f [|g t]]]]]; discriminate.
Qed.

Lemma isHexDigit_hexChars (x : N) : JS.isHexDigit x = true -> In x hexChars.
Proof.
  unfold JS.isHexDigit, JS.hexVal, JS.isDigit, hexChars; cbn [In].
  ncases; intros; try discriminate; lia.
Qed.

Lemma parseInt_two_hex_table :
  forallb (fun x =>
    forallb (fun y =>
      JS.bitAnd1 (JS.parseInt [x; y]) =? specTraceFlags [x; y]) hexChars)
    hexChars = true.
Proof. vm_compute; reflexivity. Qed.

Lemma parseInt_two_hex (x y : N) :
  JS.isHexDigit x = true -> JS.isHexDigit y = true ->
  JS.bitAnd1 (JS.parseInt [x; y]) = specTraceFlags [x; y].
Proof.
  intros Hx Hy.
  apply isHexDigit_hexChars in Hx; apply isHexDigit_hexChars in Hy.
  pose proof parseInt_two_hex_table as T.
  rewrite forallb_forall in T; specialize (T x Hx).
  rewrite forallb_forall in T; specialize (T y Hy).
  now apply N.eqb_eq in T.
Qed.

Lemma land1_cases (n : N) : N.land n 1 = 0 \/ N.land n 1 = 1.
Proof.
  destruct n as [|[p|p|]]; cbn; auto.
Qed.

Lemma specTraceFlags_cases (f : jsstring) :
  specTraceFlags f = 0 \/ specTraceFlags f = 1.
Proof.
  unfold specTraceFlags; destruct (decimalRadixValue f); [|now left].
  apply land1_cases.
Qed.

(** C3. On a four-field input, a flags field of exactly two hexadecimal
    digits (either case) gives traceFlags = (the field read in radix 10) & 1,
    which is 0 or 1; any other flags field gives traceFlags = 1; in both cases
    the span context is accepted. *)
Theorem decode_traceFlags (s d a b c f : jsstring) :
  JS.decodeURIComponent s = Ok d -> JS.split 58 d = [a; b; c; f] ->
  exists sc,
    deserializeSpanContext s = Ok (Some sc)
    /\ (flagsRegexMatch f = true ->
        traceFlags sc = JS.bitAnd1 (JS.parseInt f)
        /\ traceFlags sc = specTraceFlags f)
    /\ (flagsRegexMatch f = false -> traceFlags sc = 1)
    /\ (traceFlags sc = 0 \/ traceFlags sc = 1).
Proof.
  intros Hd Hs; eexists; split;
    [exact (deserializeSpanContext_fields s d a b c f Hd Hs)|].
  cbn [traceFlags].
  destruct (flagsRegexMatch f) eqn:Hm.
  - assert (E : JS.bitAnd1 (JS.parseInt f) = specTraceFlags f).
    { unfold flagsRegexMatch in Hm.
      destruct f as [|x [|y [|z t]]]; try discriminate.
      apply andb_true_iff in Hm; destruct Hm; now apply parseInt_two_hex. }
    repeat split; try assumption; try discriminate.
    rewrite E; apply specTraceFlags_cases.
  - repeat split; try discriminate; auto.
Qed.

Lemma decode_traceFlags_witness :
  exists sc,
    deserializeSpanContext (lit "a%3Ab:0:1f") = Ok (Some sc)
    /\ (flagsRegexMatch (lit "1f") = true ->
        traceFlags sc = JS.bitAnd1 (JS.parseInt (lit "1f"))
        /\ traceFlags sc = specTraceFlags (lit "1f"))
    /\ (flagsRegexMatch (lit "1f") = false -> traceFlags sc = 1)
    /\ (traceFlags sc = 0 \/ traceFlags sc = 1).
Proof.
  apply (decode_traceFlags (lit "a%3Ab:0:1f") (lit "a:b:0:1f")
           (lit "a") (lit "b") (lit "0") (lit "1f")); reflexivity.
Defined.

(** C4. [deserializeSpanContext] returns null exactly when the
    percent-decoded input splits on ':' into a number of fields other than
    four; "a:b:0" and "a:b:0:1:2" are both rejected. *)
Theorem decode_null_iff_field_count :
  (forall s : jsstring,
      deserializeSpanContext s = Ok None
      <-> exists d, JS.decodeURIComponent s = Ok d
                    /\ List.length (JS.split 58 d) <> 4%nat)
  /\ deserializeSpanContext (lit "a:b:0") = Ok None
  /\ deserializeSpanContext (lit "a:b:0:1:2") = Ok None.
Proof.
  split; [|split; reflexivity].
  intros s; unfold deserializeSpanContext.
  destruct (JS.decodeURIComponent s) as [d|e]; cbn [bindR].
  - destruct (JS.split 58 d) as [|a [|b [|c [|f [|g t]]]]] eqn:Hs;
      cbn [List.length]; split;
      try (intros _; exists d; rewrite Hs; cbn [List.length];
           split; [reflexivity|lia]);
      try reflexivity; try discriminate.
    intros (d' & Hd' & Hn); injection Hd' as <-.
    rewrite Hs in Hn; cbn [List.length] in Hn; lia.
  - split; [discriminate|]. intros (d & Hd & _); discriminate.
Qed.

(** C8. On a four-field input the span context is accepted whatever the
    identifiers look like: traceId is the first field with '0' characters put
    in front up to length 32 (unchanged when it is already that long), spanId
    is the second field as it stands. *)
Theorem decode_ids_unvalidated (s d a b c f : jsstring) :
  JS.decodeURIComponent s = Ok d -> JS.split 58 d = [a; b; c; f] ->
  exists sc,
    deserializeSpanContext s = Ok (Some sc)
    /\ traceId sc = repeat 48 (32 - List.length a) ++ a
    /\ ((List.length a <= 32)%nat -> List.length (traceId sc) = 32%nat)
    /\ ((32 <= List.length a)%nat -> traceId sc = a)
    /\ spanId sc = b.
Proof.
  intros Hd Hs; eexists; split;
    [exact (deserializeSpanContext_fields s d a b c f Hd Hs)|].
  cbn [traceId spanId]; unfold JS.padStart; repeat split.
  - intros H; rewrite length_app, repeat_length; lia.
  - intros H; replace (32 - List.length a)%nat with 0%nat by lia; reflexivity.
Qed.

Lemma decode_ids_unvalidated_witness :
  exists sc,
    deserializeSpanContext (lit "not hex!:zz-top:0:01") = Ok (Some sc)
    /\ traceId sc
       = repeat 48 (32 - List.length (lit "not hex!")) ++ lit "not hex!"
    /\ ((List.length (lit "not hex!") <= 32)%nat
        -> List.length (traceId sc) = 32%nat)
    /\ ((32 <= List.length (lit "not hex!"))%nat
        -> traceId sc = lit "not hex!")
    /\ spanId sc = lit "zz-top".
Proof.
  apply (decode_ids_unvalidated (lit "not hex!:zz-top:0:01")
           (lit "not hex!:zz-top:0:01")
           (lit "not hex!") (lit "zz-top") (lit "0") (lit "01")); reflexivity.
Defined.

(** ** Number.prototype.toString(16) *)

Lemma toHexDigits_acc (fuel : nat) :
  forall n acc, JS.toHexDigits fuel n acc = JS.toHexDigits fuel n [] ++ acc.
Proof.
  induction fuel as [|fuel IH]; intros n acc; cbn [JS.toHexDigits];
    [reflexivity|].
  destruct (n <? 16); [reflexivity|].
  rewrite (IH _ (_ :: acc)), (IH _ [_]), <- app_assoc; reflexivity.
Qed.

Lemma toHexDigits_length (fuel : nat) (n : N) :
  (1 <= List.length (JS.toHexDigits fuel n []))%nat.
Proof.
  destruct fuel as [|fuel]; cbn [JS.toHexDigits]; [cbn; lia|].
  destruct (n <? 16); [cbn; lia|].
  rewrite toHexDigits_acc, length_app; cbn; lia.
Qed.

Lemma hexLower_lower (d : N) : d < 16 -> isLowerHexChar (JS.hexLower d) = true.
Proof.
  intros H; unfold isLowerHexChar, JS.hexLower, JS.isDigit.
  ncases; reflexivity.
Qed.

Lemma readHex_snoc (l : jsstring) (d : N) :
  d < 16 -> readHex (l ++ [JS.hexLower d]) = 16 * readHex l + d.
Proof.
  intros H; unfold readHex; rewrite fold_left_app; cbn [fold_left].
  now rewrite hexVal_hexLower.
Qed.

Lemma toHexDigits_spec (fuel : nat) :
  forall n, n < 16 ^ N.of_nat (S fuel) ->
    readHex (JS.toHexDigits fuel n []) = n
    /\ forallb isLowerHexChar (JS.toHexDigits fuel n []) = true.
Proof.
  induction fuel as [|fuel IH]; intros n Hn.
  - change (16 ^ N.of_nat 1) with 16 in Hn.
    cbn [JS.toHexDigits]; rewrite N.mod_small by assumption.
    change [JS.hexLower n] with ([] ++ [JS.hexLower n]).
    rewrite readHex_snoc by assumption; cbn [app forallb].
    rewrite hexLower_lower by assumption; split; reflexivity.
  - cbn [JS.toHexDigits]; destruct (N.ltb_spec n 16) as [H|H].
    + change [JS.hexLower n] with ([] ++ [JS.hexLower n]).
      rewrite readHex_snoc by assumption; cbn [app forallb].
      rewrite hexLower_lower by assumption; split; reflexivity.
    + rewrite toHexDigits_acc.
      rewrite Nat2N.inj_succ, N.pow_succ_r' in Hn.
      destruct (IH (n / 16)) as [Hv Hl].
      { apply N.Div0.div_lt_upper_bound; exact Hn. }
      rewrite readHex_snoc, Hv by lia.
      rewrite forallb_app, Hl; cbn [forallb].
      rewrite hexLower_lower by lia; split; [lia|reflexivity].
Qed.

(** [toString16] writes the usual lower-case hexadecimal numeral. *)
Lemma toString16_spec (n : N) :
  readHex (JS.toString16 n) = n
  /\ forallb isLowerHexChar (JS.toString16 n) = true.
Proof.
  apply toHexDigits_spec.
  rewrite Nat2N.inj_succ, N2Nat.id.
  apply N.lt_le_trans with (2 ^ N.size n); [apply N.size_gt|].
  apply N.le_trans with (16 ^ N.size n).
  - apply N.pow_le_mono_l; lia.
  - apply N.pow_le_mono_r; lia.
Qed.

Lemma toString16_long (n : N) :
  15 < n -> (2 <= List.length (JS.toString16 n))%nat.
Proof.
  intros H; unfold JS.toString16.
  destruct (N.to_nat (N.size n)) as [|fuel] eqn:E.
  { rewrite N.size_log2 in E by lia. lia. }
  cbn [JS.toHexDigits]; destruct (N.ltb_spec n 16); [lia|].
  rewrite toHexDigits_acc, length_app.
  pose proof (toHexDigits_length fuel (n / 16)); cbn [List.length]; lia.
Qed.

(** ** Trace header: encoding and round trip *)

Lemma forallb_hex_plain (s : jsstring) :
  forallb JS.isHexDigit s = true ->
  Forall (fun c => c <> 37) s /\ Forall (fun c => c <> 58) s.
Proof.
  intros H; rewrite forallb_forall in H.
  split; apply Forall_forall; intros c Hc; apply isHexDigit_plain; auto.
Qed.

(** C2. Encoding a span context whose traceId is 32 hexadecimal digits, whose
    spanId is made of hexadecimal digits and whose traceFlags is 0 or 1, then
    decoding the result, gives back the same traceId, spanId and traceFlags
    with isRemote = true. *)
Theorem decode_encode_roundtrip (sc : SpanContext) :
  List.length (traceId sc) = 32%nat ->
  forallb JS.isHexDigit (traceId sc) = true ->
  forallb JS.isHexDigit (spanId sc) = true ->
  traceFlags sc = 0 \/ traceFlags sc = 1 ->
  deserializeSpanContext (serializeSpanContext sc)
  = Ok (Some (mkSpanContext (traceId sc) (spanId sc) true (traceFlags sc))).
Proof.
  destruct sc as [tid sid rem fl]; cbn [traceId spanId traceFlags].
  intros Hlen Ht Hs Hfl.
  destruct (forallb_hex_plain tid Ht) as [Htp Htc].
  destruct (forallb_hex_plain sid Hs) as [Hsp Hsc].
  assert (Hser : exists ff,
             serializeSpanContext (mkSpanContext tid sid rem fl)
             = tid ++ 58 :: (sid ++ 58 :: 48 :: 58 :: ff)
             /\ Forall (fun c => c <> 37) ff
             /\ JS.split 58 ff = [ff]
             /\ (if flagsRegexMatch ff then JS.bitAnd1 (JS.parseInt ff) else 1)
                = fl).
  { destruct Hfl as [-> | ->].
    - exists [48; 48]; repeat split.
      repeat constructor; discriminate.
    - exists [48; 49]; repeat split.
      repeat constructor; discriminate. }
  destruct Hser as (ff & -> & Hfp & Hfs & Hfv).
  rewrite (deserializeSpanContext_fields _
             (tid ++ 58 :: (sid ++ 58 :: 48 :: 58 :: ff)) tid sid [48] ff).
  - rewrite Hfv; unfold JS.padStart; rewrite Hlen; reflexivity.
  - apply decodeURIComponent_plain.
    apply Forall_app; split; [assumption|].
    constructor; [discriminate|].
    apply Forall_app; split; [assumption|].
    repeat (constructor; [discriminate|]); assumption.
  - rewrite split_app_sep by assumption.
    rewrite split_app_sep by assumption.
    change (48 :: 58 :: ff) with ([48] ++ 58 :: ff).
    rewrite split_app_sep by (repeat constructor; discriminate).
    now rewrite Hfs.
Qed.

Lemma decode_encode_roundtrip_witness :
  deserializeSpanContext
    (serializeSpanContext
       (mkSpanContext (lit "d4cda95b652f4a1592b449d5929fda1b")
                      (lit "6e0c63257de34c92") false 1))
  = Ok (Some (mkSpanContext (lit "d4cda95b652f4a1592b449d5929fda1b")
                            (lit "6e0c63257de34c92") true 1)).
Proof.
  apply (decode_encode_roundtrip
           (mkSpanContext (lit "d4cda95b652f4a1592b449d5929fda1b")
                          (lit "6e0c63257de34c92") false 1));
    [reflexivity|reflexivity|reflexivity|right; reflexivity].
Defined.

(** ** inject and extract over any carrier *)

Lemma mergeBaggageValues_Throw_iff (vals : list (jsstring * option jsstring)) :
  forall b,
    mergeBaggageValues vals b = Throw URIError
    <-> exists key v, In (key, Some v) vals
                      /\ JS.decodeURIComponent v = Throw URIError.
Proof.
  induction vals as [|[key [v|]] vals IH]; intros b; cbn [mergeBaggageValues].
  - split; [discriminate|]. intros (k & v & [] & _).
  - destruct (JS.decodeURIComponent v) as [d|[]] eqn:Hd; cbn [bindR].
    + rewrite IH; split; intros (k & w & Hin & Hw).
      * exists k, w; split; [right; exact Hin|exact Hw].
      * destruct Hin as [E|Hin]; [|eauto].
        injection E as <- <-; congruence.
    + split; [|reflexivity]. intros _; exists key, v; split; [now left|exact Hd].
  - rewrite IH; split; intros (k & w & Hin & Hw).
    + exists k, w; split; [right; exact Hin|exact Hw].
    + destruct Hin as [E|Hin]; [discriminate|eauto].
Qed.

Lemma mergeBaggageValues_undefined (vals : list (jsstring * option jsstring)) :
  forall b,
    (forall key v, In (key, v) vals -> v = None) ->
    mergeBaggageValues vals b = Ok b.
Proof.
  induction vals as [|[key [v|]] vals IH]; intros b H; cbn [mergeBaggageValues].
  - reflexivity.
  - discriminate (H key (Some v) (or_introl eq_refl)).
  - apply IH; intros k v Hin; apply (H k v); now right.
Qed.

Section PropagatorFacts.

Variable Carrier : Type.
Variable getter : TextMapGetter Carrier.
Variable setter : TextMapSetter Carrier.
Variable this : JaegerPropagator.

Lemma applyWrites_app (w1 w2 : WriteLog) (carrier : Carrier) :
  applyWrites setter (w1 ++ w2) carrier
  = applyWrites setter w2 (applyWrites setter w1 carrier).
Proof. unfold applyWrites; apply fold_left_app. Qed.

Lemma injectEntries_wellFormed (entries : list (jsstring * BaggageEntry)) :
  forall carrier,
    (forall k e, In (k, e) entries -> JS.isWellFormed (value e) = true) ->
    injectEntries setter entries carrier
    = (Ok tt, applyWrites setter (baggageWrites entries) carrier).
Proof.
  induction entries as [|[key entry] entries IH]; intros carrier H;
    [reflexivity|].
  cbn [injectEntries baggageWrites map fst snd].
  unfold encodedValue.
  destruct (JS.encodeURIComponent (value entry)) as [v|[]] eqn:He.
  - rewrite IH by (intros k e Hin; apply (H k e); now right).
    reflexivity.
  - apply encodeURIComponent_Throw_iff in He.
    rewrite (H key entry (or_introl eq_refl)) in He; discriminate.
Qed.

Lemma injectEntries_Throw_iff (entries : list (jsstring * BaggageEntry)) :
  forall carrier,
    fst (injectEntries setter entries carrier) = Throw URIError
    <-> exists key entry, In (key, entry) entries
                          /\ JS.isWellFormed (value entry) = false.
Proof.
  induction entries as [|[key entry] entries IH]; intros carrier;
    cbn [injectEntries].
  - split; [discriminate|]. intros (k & e & [] & _).
  - destruct (JS.encodeURIComponent (value entry)) as [v|[]] eqn:He.
    + rewrite IH; split; intros (k & e & Hin & Hwf).
      * exists k, e; split; [now right|exact Hwf].
      * destruct Hin as [E|Hin]; [|eauto].
        injection E as <- <-.
        apply encodeURIComponent_Throw_iff in Hwf; congruence.
    + split; [|reflexivity]. intros _; exists key, entry.
      split; [now left|now apply encodeURIComponent_Throw_iff].
Qed.

(** The carrier after the optional trace-header write of [inject]. *)
Lemma inject_unfold (context : Context) (carrier : Carrier) :
  inject setter this context carrier
  = injectEntries setter (entriesOf (getBaggage context))
      (applyWrites setter (traceWrites this context) carrier).
Proof.
  unfold inject, traceWrites, entriesOf.
  destruct (getSpanContext context) as [sc|];
    [destruct (isTracingSuppressed context)|];
    destruct (getBaggage context); reflexivity.
Qed.

(** C7. For a context that carries a span context and is not suppressed,
    [inject] sets the trace header to
    traceId ":" spanId ":" "0" ":" flags, both identifiers as they stand
    (nothing is percent-encoded), where flags is a '0' followed by the
    lower-case hexadecimal numeral of traceFlags: "00" for 0, and more than
    two characters once traceFlags exceeds 0xF. *)
Theorem inject_trace_header_value (context : Context) (carrier : Carrier)
  (sc : SpanContext) :
  getSpanContext context = Some sc ->
  isTracingSuppressed context = false ->
  let flags := lit "0" ++ JS.toString16 (traceFlags sc) in
  let headerValue :=
    traceId sc ++ lit ":" ++ spanId sc ++ lit ":" ++ lit "0" ++ lit ":"
    ++ flags in
  inject setter this context carrier
  = injectEntries setter (entriesOf (getBaggage context))
      (set setter carrier (_jaegerTraceHeader this) headerValue)
  /\ readHex (JS.toString16 (traceFlags sc)) = traceFlags sc
  /\ forallb isLowerHexChar (JS.toString16 (traceFlags sc)) = true
  /\ (traceFlags sc = 0 -> flags = lit "00")
  /\ (15 < traceFlags sc -> (2 < List.length flags)%nat).
Proof.
  intros Hsc Hsup flags headerValue.
  split; [|split; [|split; [|split]]].
  - rewrite inject_unfold; unfold traceWrites; rewrite Hsc, Hsup.
    cbn [applyWrites fold_left fst snd]; do 2 f_equal.
    unfold serializeSpanContext, traceFlagsField, TraceFlags_NONE,
      headerValue, flags.
    destruct (N.eqb_spec (traceFlags sc) 0) as [->|_]; reflexivity.
  - apply toString16_spec.
  - apply toString16_spec.
  - intros E; unfold flags; rewrite E; reflexivity.
  - intros H; unfold flags; rewrite length_app.
    pose proof (toString16_long _ H); cbn [lit List.length] in *.
    change (List.length (lit "0")) with 1%nat; lia.
Qed.

(** C5, amended.  With tracing suppressed and every baggage value free of
    lone surrogates, the [set] calls of [inject] are exactly one baggage
    header per entry, in order, and no trace header; for any context with the
    same baggage the same baggage headers follow the optional trace header. *)
Theorem inject_suppressed_baggage_only (context : Context) (carrier : Carrier) :
  isTracingSuppressed context = true ->
  (forall k e, In (k, e) (entriesOf (getBaggage context)) ->
               JS.isWellFormed (value e) = true) ->
  inject setter this context carrier
  = (Ok tt,
     applyWrites setter (baggageWrites (entriesOf (getBaggage context))) carrier)
  /\ forall context',
      getBaggage context' = getBaggage context ->
      inject setter this context' carrier
      = (Ok tt,
         applyWrites setter
           (traceWrites this context'
            ++ baggageWrites (entriesOf (getBaggage context))) carrier).
Proof.
  intros Hsup Hwf; split.
  - rewrite inject_unfold, injectEntries_wellFormed by assumption.
    unfold traceWrites; rewrite Hsup.
    destruct (getSpanContext context); reflexivity.
  - intros context' Hb.
    rewrite inject_unfold, Hb, injectEntries_wellFormed by assumption.
    now rewrite applyWrites_app.
Qed.

Lemma extract_newContext (context : Context) (carrier : Carrier) (next : nat) :
  let step :=
    match firstValue (get getter carrier (_jaegerTraceHeader this)) with
    | Some s =>
        bindA (liftR (deserializeSpanContext s))
          (fun spanContext =>
             match spanContext with
             | Some sc => setSpanContext context sc
             | None => ret context
             end)
    | None => ret context
    end in
  (step next = Throw URIError
   /\ exists h, firstValue (get getter carrier (_jaegerTraceHeader this)) = Some h
                /\ JS.decodeURIComponent h = Throw URIError)
  \/ (exists c next',
        step next = Ok (c, next')
        /\ (next <= next')%nat
        /\ (c = context /\ next' = next
            \/ (ctxId c = next /\ next' = S next
                /\ exists h sc,
                    firstValue (get getter carrier (_jaegerTraceHeader this))
                    = Some h
                    /\ deserializeSpanContext h = Ok (Some sc)))
        /\ getBaggage c = getBaggage context
        /\ forall h,
            firstValue (get getter carrier (_jaegerTraceHeader this)) = Some h ->
            JS.decodeURIComponent h <> Throw URIError).
Proof.
  cbv zeta.
  destruct (firstValue (get getter carrier (_jaegerTraceHeader this)))
    as [h|] eqn:Hh.
  - unfold bindA, liftR.
    destruct (deserializeSpanContext h) as [[sc|]|[]] eqn:Hd.
    + right; eexists; eexists; split; [reflexivity|].
      split; [lia|]; split; [right; repeat split; eauto|].
      split; [reflexivity|].
      intros h' [= <-] Ht.
      apply deserializeSpanContext_Throw_iff in Ht; congruence.
    + right; exists context, next; split; [reflexivity|].
      split; [lia|]; split; [left; auto|]; split; [reflexivity|].
      intros h' [= <-] Ht.
      apply deserializeSpanContext_Throw_iff in Ht; congruence.
    + left; split; [reflexivity|].
      exists h; split; [reflexivity|].
      now apply deserializeSpanContext_Throw_iff.
  - right; exists context, next; split; [reflexivity|].
    split; [lia|]; split; [left; auto|]; split; [reflexivity|].
    intros h' [=].
Qed.

Lemma baggageValuesOf_nil (carrier : Carrier) :
  (forall key, In key (keys getter carrier) ->
               UBER_BAGGAGE_HEADER_REGEX_test key = false) ->
  baggageValuesOf getter carrier = [].
Proof.
  intros H; unfold baggageValuesOf.
  induction (keys getter carrier) as [|k l IH]; [reflexivity|].
  cbn [filter]; rewrite (H k (or_introl eq_refl)).
  apply IH; intros key Hin; apply H; now right.
Qed.

Lemma baggageValuesOf_In (carrier : Carrier) (key : jsstring) (v : option jsstring) :
  In (key, v) (baggageValuesOf getter carrier) ->
  exists name,
    In name (keys getter carrier)
    /\ UBER_BAGGAGE_HEADER_REGEX_test name = true
    /\ v = firstValue (get getter carrier name).
Proof.
  unfold baggageValuesOf; intros H.
  apply in_map_iff in H; destruct H as (name & E & Hin).
  apply filter_In in Hin; destruct Hin as [Hin Ht].
  injection E as _ <-; eauto.
Qed.

Lemma extract_unfold (context : Context) (carrier : Carrier) (next : nat) :
  extract getter this context carrier next
  = match
      match firstValue (get getter carrier (_jaegerTraceHeader this)) with
      | Some s =>
          bindA (liftR (deserializeSpanContext s))
            (fun spanContext =>
               match spanContext with
               | Some sc => setSpanContext context sc
               | None => ret context
               end)
      | None => ret context
      end next
    with
    | Ok (newContext, next') =>
        match baggageValuesOf getter carrier with
        | [] => Ok (newContext, next')
        | _ :: _ =>
            match
              mergeBaggageValues (baggageValuesOf getter carrier)
                (match getBaggage context with
                 | Some b => b
                 | None => createBaggage
                 end)
            with
            | Ok currentBaggage => setBaggage newContext currentBaggage next'
            | Throw e => Throw e
            end
        end
    | Throw e => Throw e
    end.
Proof.
  unfold extract.
  match goal with
  | |- bindA ?m _ next = _ =>
      unfold bindA at 1; destruct (m next) as [[newContext next']|e]
  end; [|reflexivity].
  destruct (baggageValuesOf getter carrier) as [|bv l]; [reflexivity|].
  cbn [List.length Nat.eqb]; unfold bindA, liftR.
  destruct (mergeBaggageValues _ _); reflexivity.
Qed.

Lemma extract_Throw_iff (context : Context) (carrier : Carrier) (next : nat) :
  extract getter this context carrier next = Throw URIError
  <-> (exists h,
          firstValue (get getter carrier (_jaegerTraceHeader this)) = Some h
          /\ JS.decodeURIComponent h = Throw URIError)
      \/ (exists key v,
             In (key, Some v) (baggageValuesOf getter carrier)
             /\ JS.decodeURIComponent v = Throw URIError).
Proof.
  rewrite extract_unfold.
  destruct (extract_newContext context carrier next)
    as [[-> Hh] | (c & next' & -> & _ & _ & _ & Hok)].
  - split; [intros _; left; exact Hh|reflexivity].
  - destruct (baggageValuesOf getter carrier) as [|bv l] eqn:Hbv.
    + split; [discriminate|].
      intros [(h & Hh & Ht) | (k & v & [] & _)].
      destruct (Hok h Hh Ht).
    + rewrite <- Hbv.
      destruct (mergeBaggageValues (baggageValuesOf getter carrier) _)
        as [b|[]] eqn:Hm.
      * split; [discriminate|].
        intros [(h & Hh & Ht) | Hex]; [destruct (Hok h Hh Ht)|].
        apply mergeBaggageValues_Throw_iff with (b := match getBaggage context with
                  | Some b => b
                  | None => createBaggage
                  end) in Hex.
        congruence.
      * split; [|reflexivity]. intros _; right.
        eapply mergeBaggageValues_Throw_iff; exact Hm.
Qed.

Lemma injectEntries_throw_at (pre post : list (jsstring * BaggageEntry))
  (key : jsstring) (entry : BaggageEntry) :
  forall carrier,
    (forall k e, In (k, e) pre -> JS.isWellFormed (value e) = true) ->
    JS.isWellFormed (value entry) = false ->
    injectEntries setter (pre ++ (key, entry) :: post) carrier
    = (Throw URIError, applyWrites setter (baggageWrites pre) carrier).
Proof.
  induction pre as [|[k e] pre IH]; intros carrier Hpre Hbad;
    cbn [app injectEntries].
  - apply encodeURIComponent_Throw_iff in Hbad; rewrite Hbad; reflexivity.
  - cbn [baggageWrites map fst snd]; unfold encodedValue.
    destruct (JS.encodeURIComponent (value e)) as [v|[]] eqn:He.
    + rewrite IH by (auto; intros k' e' Hin; apply (Hpre k' e'); now right).
      reflexivity.
    + apply encodeURIComponent_Throw_iff in He.
      rewrite (Hpre k e (or_introl eq_refl)) in He; discriminate.
Qed.

(** C1, amended.  The only error is the URIError of the two URI built-ins:
    [deserializeSpanContext] throws exactly when its input does not
    percent-decode; [extract] throws exactly when the trace header value, if
    it is a string, or the defined value of a matched baggage header does not
    percent-decode; [inject] throws exactly when a baggage value has a lone
    surrogate, and at the throw the carrier has received the trace header (if
    one is due) and the baggage headers of the entries before the first such
    value, and nothing else.  In every other case they return. *)
Theorem core_throws_exactly_on_URIError :
  (forall s,
      deserializeSpanContext s = Throw URIError
      <-> JS.decodeURIComponent s = Throw URIError)
  /\ (forall context carrier next,
         extract getter this context carrier next = Throw URIError
         <-> (exists h,
                 firstValue (get getter carrier (_jaegerTraceHeader this))
                 = Some h
                 /\ JS.decodeURIComponent h = Throw URIError)
             \/ (exists key v,
                    In (key, Some v) (baggageValuesOf getter carrier)
                    /\ JS.decodeURIComponent v = Throw URIError))
  /\ (forall context carrier,
         fst (inject setter this context carrier) = Throw URIError
         <-> exists key entry,
               In (key, entry) (entriesOf (getBaggage context))
               /\ JS.isWellFormed (value entry) = false)
  /\ (forall context carrier pre key entry post,
         entriesOf (getBaggage context) = pre ++ (key, entry) :: post ->
         (forall k e, In (k, e) pre -> JS.isWellFormed (value e) = true) ->
         JS.isWellFormed (value entry) = false ->
         inject setter this context carrier
         = (Throw URIError,
            applyWrites setter
              (traceWrites this context ++ baggageWrites pre) carrier))
  /\ (forall context carrier,
         (forall k e, In (k, e) (entriesOf (getBaggage context)) ->
                      JS.isWellFormed (value e) = true) ->
         inject setter this context carrier
         = (Ok tt,
            applyWrites setter
              (traceWrites this context
               ++ baggageWrites (entriesOf (getBaggage context))) carrier)).
Proof.
  split; [exact deserializeSpanContext_Throw_iff|].
  split; [exact extract_Throw_iff|].
  split; [|split].
  - intros context carrier; rewrite inject_unfold.
    apply injectEntries_Throw_iff.
  - intros context carrier pre key entry post He Hpre Hbad.
    rewrite inject_unfold, He, injectEntries_throw_at by assumption.
    now rewrite applyWrites_app.
  - intros context carrier Hwf.
    rewrite inject_unfold, injectEntries_wellFormed by assumption.
    now rewrite applyWrites_app.
Qed.

(** C6, amended.  When the trace header is absent, or present but decoded to
    null (it percent-decodes and does not split into four fields), and no
    carrier key matches the baggage pattern, [extract] returns the very
    context it was given and creates no object.  Whenever [extract] returns,
    the result is a context: the given one or a newly created one. *)
Theorem extract_identity_noop (context : Context) (carrier : Carrier) (next : nat) :
  (firstValue (get getter carrier (_jaegerTraceHeader this)) = None
   \/ exists h,
       firstValue (get getter carrier (_jaegerTraceHeader this)) = Some h
       /\ deserializeSpanContext h = Ok None) ->
  (forall key, In key (keys getter carrier) ->
               UBER_BAGGAGE_HEADER_REGEX_test key = false) ->
  extract getter this context carrier next = Ok (context, next)
  /\ forall context' carrier' c next',
      extract getter this context' carrier' next = Ok (c, next') ->
      c = context' \/ (next <= ctxId c)%nat.
Proof.
  intros Hh Hk; split.
  - rewrite extract_unfold, (baggageValuesOf_nil carrier Hk).
    destruct Hh as [-> | (h & -> & Hd)]; [reflexivity|].
    unfold bindA, liftR; rewrite Hd; reflexivity.
  - intros context' carrier' c next'; rewrite extract_unfold.
    destruct (extract_newContext context' carrier' next)
      as [[-> _] | (c0 & n0 & -> & Hle & Hc0 & _ & _)]; [discriminate|].
    destruct (baggageValuesOf getter carrier') as [|bv l].
    + intros [= <- <-].
      destruct Hc0 as [[-> _] | (Hid & _)]; [now left|right; lia].
    + destruct (mergeBaggageValues _ _) as [b|e]; [|discriminate].
      unfold setBaggage; intros [= <- <-]; right; cbn [ctxId]; exact Hle.
Qed.

(** C10, amended.  When some carrier key matches the baggage pattern, every
    matched key has an undefined value, and the trace header value (if it is
    a string) percent-decodes, [extract] returns a new context object that
    carries the given context's baggage, or an empty baggage when it had
    none. *)
Theorem extract_undefined_baggage_values (context : Context) (carrier : Carrier)
  (next : nat) :
  (exists key, In key (keys getter carrier)
               /\ UBER_BAGGAGE_HEADER_REGEX_test key = true) ->
  (forall key, In key (keys getter carrier) ->
               UBER_BAGGAGE_HEADER_REGEX_test key = true ->
               firstValue (get getter carrier key) = None) ->
  (forall h, firstValue (get getter carrier (_jaegerTraceHeader this)) = Some h ->
             JS.decodeURIComponent h <> Throw URIError) ->
  (ctxId context < next)%nat ->
  exists c next',
    extract getter this context carrier next = Ok (c, next')
    /\ getBaggage c
       = Some (match getBaggage context with
               | Some b => b
               | None => createBaggage
               end)
    /\ ctxId c <> ctxId context
    /\ c <> context.
Proof.
  intros (key & Hin & Ht) Hundef Hok Hfresh.
  rewrite extract_unfold.
  destruct (extract_newContext context carrier next)
    as [[_ (h & Hh & Hthrow)] | (c0 & n0 & -> & Hle & _ & _ & _)].
  { destruct (Hok h Hh Hthrow). }
  assert (Hne : baggageValuesOf getter carrier <> []).
  { unfold baggageValuesOf; intros E; apply map_eq_nil in E.
    assert (Hf : In key (filter UBER_BAGGAGE_HEADER_REGEX_test
                           (keys getter carrier)))
      by (apply filter_In; auto).
    rewrite E in Hf; destruct Hf. }
  destruct (baggageValuesOf getter carrier) as [|bv l] eqn:Hbv;
    [contradiction|].
  rewrite <- Hbv, mergeBaggageValues_undefined.
  - unfold setBaggage; eexists; eexists; split; [reflexivity|].
    cbn [getBaggage ctxBaggage ctxId]; split; [reflexivity|].
    assert (n0 <> ctxId context) by lia.
    split; [assumption|].
    intros E; apply (f_equal ctxId) in E; cbn [ctxId] in E; contradiction.
  - intros k v Hv; apply baggageValuesOf_In in Hv.
    destruct Hv as (name & Hn & Htest & ->); auto.
Qed.

End PropagatorFacts.

(** ** Baggage through a plain-object carrier *)

Lemma objHas_fresh (o : ObjectCarrier) (key : jsstring) :
  ~ In key (map fst o) -> objHas o key = false.
Proof.
  induction o as [|[k x] o IH]; intros H; [reflexivity|].
  cbn [map fst In] in H; unfold objHas; cbn [existsb fst].
  rewrite eqstr_neq by tauto; cbn [orb]; apply IH; tauto.
Qed.

Lemma objInsert_plain (o : ObjectCarrier) (key : jsstring) (v : HeaderValue) :
  arrayIndex key = None -> objInsert o key v = o ++ [(key, v)].
Proof.
  intros Hk; induction o as [|[k x] o IH]; cbn [objInsert app]; [reflexivity|].
  unfold listedBefore; rewrite Hk, IH; reflexivity.
Qed.

Lemma objSet_fresh (o : ObjectCarrier) (key : jsstring) (v : HeaderValue) :
  ~ In key (map fst o) -> arrayIndex key = None ->
  objSet o key v = o ++ [(key, v)].
Proof.
  intros H Hk; unfold objSet.
  rewrite objHas_fresh by assumption; now apply objInsert_plain.
Qed.

Lemma applyWrites_object (w : WriteLog) :
  forall o : ObjectCarrier,
    NoDup (map fst w) ->
    (forall k, In k (map fst w) -> ~ In k (map fst o)) ->
    (forall k, In k (map fst w) ->
               arrayIndex k = None /\ eqstr k (lit "__proto__") = false) ->
    applyWrites defaultTextMapSetter w o = o ++ objectOf w.
Proof.
  induction w as [|[k v] w IH]; intros o Hnd Hdis Hord.
  - cbn; now rewrite app_nil_r.
  - cbn [map fst] in Hnd; inversion Hnd as [|? ? Hk Hnd']; subst.
    destruct (Hord k (or_introl eq_refl)) as [Hidx Hproto].
    change (applyWrites defaultTextMapSetter ((k, v) :: w) o)
      with (applyWrites defaultTextMapSetter w
              (if eqstr k (lit "__proto__") then o
               else objSet o k (HString v))).
    rewrite Hproto, objSet_fresh by (assumption || (apply Hdis; now left)).
    rewrite IH; [|assumption| |].
    + cbn [objectOf map fst snd]; now rewrite <- app_assoc.
    + intros k' Hin; rewrite map_app, in_app_iff; cbn [map fst In].
      intros [H|[H|[]]].
      * apply (Hdis k'); [now right|exact H].
      * subst; contradiction.
    + intros k' Hin; apply Hord; now right.
Qed.

Lemma baggageWrites_ordinary (entries : list (jsstring * BaggageEntry))
  (name : jsstring) :
  In name (map fst (baggageWrites entries)) ->
  arrayIndex name = None /\ eqstr name (lit "__proto__") = false.
Proof.
  intros Hin; unfold baggageWrites in Hin; rewrite map_map in Hin.
  apply in_map_iff in Hin; destruct Hin as ([k e] & <- & _); cbn [fst].
  split; reflexivity.
Qed.

Lemma baggageWrites_keys (entries : list (jsstring * BaggageEntry)) :
  map fst (baggageWrites entries) = map baggageHeaderName (map fst entries).
Proof. unfold baggageWrites; now rewrite !map_map. Qed.

Lemma baggageHeaderName_inj (k1 k2 : jsstring) :
  baggageHeaderName k1 = baggageHeaderName k2 -> k1 = k2.
Proof.
  unfold baggageHeaderName; intros H.
  apply app_inv_head in H; now apply app_inv_head in H.
Qed.

Lemma baggageWrites_NoDup (entries : list (jsstring * BaggageEntry)) :
  NoDup (map fst entries) -> NoDup (map fst (baggageWrites entries)).
Proof.
  rewrite baggageWrites_keys; intros H.
  induction H as [|k l Hk _ IH]; cbn [map]; constructor; [|exact IH].
  rewrite in_map_iff; intros (k' & E & Hin).
  apply baggageHeaderName_inj in E; now subst.
Qed.

Lemma objGet_In (o : ObjectCarrier) (key : jsstring) (v : HeaderValue) :
  NoDup (map fst o) -> In (key, v) o -> objGet o key = v.
Proof.
  induction o as [|[k x] o IH]; intros Hnd Hin; [destruct Hin|].
  cbn [map fst] in Hnd; inversion Hnd as [|? ? Hk Hnd']; subst.
  cbn [objGet]; destruct Hin as [E|Hin].
  - injection E as -> ->; now rewrite eqstr_refl.
  - rewrite eqstr_neq; [now apply IH|].
    intros ->; apply Hk; apply in_map_iff; exists (key, v); auto.
Qed.

Lemma objGet_objectOf (w : WriteLog) (key : jsstring) :
  objGet (objectOf w) key = HUndefined
  \/ exists k v, In (k, v) w /\ objGet (objectOf w) key = HString v.
Proof.
  induction w as [|[k v] w IH]; [now left|].
  cbn [objectOf map objGet fst snd]; destruct (eqstr k key).
  - right; exists k, v; split; [now left|reflexivity].
  - destruct IH as [IH|(k' & v' & Hin & IH)]; [now left|].
    right; exists k', v'; split; [now right|exact IH].
Qed.

Lemma test_baggageHeaderName (key : jsstring) :
  UBER_BAGGAGE_HEADER_REGEX_test (baggageHeaderName key) = capturableKey key.
Proof. reflexivity. Qed.

Lemma substring_baggageHeaderName (key : jsstring) :
  JS.substring (List.length UBER_BAGGAGE_HEADER_PREFIX + 1)
    (baggageHeaderName key) = key.
Proof. reflexivity. Qed.

Lemma encodedValue_decodes (e : BaggageEntry) :
  JS.isWellFormed (value e) = true -> validUnits (value e) = true ->
  JS.decodeURIComponent (encodedValue e) = Ok (value e).
Proof.
  intros Hwf Hv; unfold encodedValue.
  destruct (decodeURIComponent_encodeURIComponent _ Hwf Hv) as (x & -> & Hd).
  exact Hd.
Qed.

Lemma baggageValuesOf_object (entries : list (jsstring * BaggageEntry)) :
  NoDup (map fst entries) ->
  (forall k e, In (k, e) entries -> capturableKey k = true) ->
  baggageValuesOf defaultTextMapGetter (objectOf (baggageWrites entries))
  = map (fun ke => (fst ke, Some (encodedValue (snd ke)))) entries.
Proof.
  intros Hnd Hkeys; unfold baggageValuesOf.
  cbn [keys get defaultTextMapGetter].
  assert (Hnd' : NoDup (map fst (objectOf (baggageWrites entries)))).
  { unfold objectOf; rewrite map_map; cbn [fst].
    apply (baggageWrites_NoDup entries Hnd). }
  assert (Hget : forall k e, In (k, e) entries ->
            objGet (objectOf (baggageWrites entries)) (baggageHeaderName k)
            = HString (encodedValue e)).
  { intros k e Hin; apply objGet_In; [exact Hnd'|].
    unfold objectOf, baggageWrites; rewrite map_map; cbn [fst snd].
    apply in_map_iff; exists (k, e); auto. }
  clear Hnd Hnd'.
  remember (objectOf (baggageWrites entries)) as o eqn:Ho.
  assert (Hk : map fst o = map baggageHeaderName (map fst entries)).
  { subst o; unfold objectOf; rewrite map_map; cbn [fst].
    apply baggageWrites_keys. }
  rewrite Hk; clear Hk Ho.
  induction entries as [|[k e] entries IH]; [reflexivity|].
  cbn [map fst snd filter].
  rewrite test_baggageHeaderName, (Hkeys k e (or_introl eq_refl)).
  cbn [map]; rewrite substring_baggageHeaderName.
  rewrite (Hget k e (or_introl eq_refl)); cbn [firstValue].
  f_equal; apply IH.
  - intros k' e' Hin; apply (Hkeys k' e'); now right.
  - intros k' e' Hin; apply Hget; now right.
Qed.

Lemma setEntry_fresh (b : Baggage) (key : jsstring) (entry : BaggageEntry) :
  ~ In key (map fst b) -> setEntry b key entry = b ++ [(key, entry)].
Proof.
  induction b as [|[k e] b IH]; intros H; cbn [setEntry app]; [reflexivity|].
  cbn [map fst In] in H.
  rewrite eqstr_neq by tauto.
  rewrite IH by tauto; reflexivity.
Qed.

Lemma mergeBaggageValues_encoded (entries : list (jsstring * BaggageEntry)) :
  forall b : Baggage,
    NoDup (map fst entries) ->
    (forall k, In k (map fst entries) -> ~ In k (map fst b)) ->
    (forall k e, In (k, e) entries ->
                 JS.isWellFormed (value e) = true /\ validUnits (value e) = true) ->
    mergeBaggageValues
      (map (fun ke => (fst ke, Some (encodedValue (snd ke)))) entries) b
    = Ok (b ++ plainEntries entries).
Proof.
  induction entries as [|[k e] entries IH]; intros b Hnd Hdis Hwf.
  - cbn; now rewrite app_nil_r.
  - cbn [map fst] in Hnd; inversion Hnd as [|? ? Hk Hnd']; subst.
    cbn [map fst snd mergeBaggageValues].
    destruct (Hwf k e (or_introl eq_refl)) as [H1 H2].
    rewrite encodedValue_decodes by assumption; cbn [bindR].
    rewrite setEntry_fresh by (apply Hdis; now left).
    rewrite IH; [|assumption| |].
    + cbn [plainEntries map fst snd]; now rewrite <- app_assoc.
    + intros k' Hin; rewrite map_app, in_app_iff; cbn [map fst In].
      intros [H|[H|[]]].
      * apply (Hdis k'); [now right|exact H].
      * subst; contradiction.
    + intros k' e' Hin; apply (Hwf k' e'); now right.
Qed.

(** C9, amended.  For a baggage whose keys are non-empty and do not start
    with a line terminator and whose values have no lone surrogate, [inject]
    makes one [set] call per entry, named "uberctx-" followed by the key, with
    the percent-encoded value, after the optional trace header; on a plain
    object these calls leave exactly those headers, and [extract] on that
    object gives a baggage with the same keys, in the same order, and the
    original values. *)
Theorem baggage_roundtrip (this : JaegerPropagator)
  (entries : list (jsstring * BaggageEntry)) :
  NoDup (map fst entries) ->
  (forall k e, In (k, e) entries ->
               capturableKey k = true
               /\ JS.isWellFormed (value e) = true
               /\ validUnits (value e) = true) ->
  (forall (Carrier : Type) (setter : TextMapSetter Carrier) context carrier,
      getBaggage context = Some entries ->
      inject setter this context carrier
      = (Ok tt,
         applyWrites setter
           (traceWrites this context ++ baggageWrites entries) carrier))
  /\ (forall context,
         getBaggage context = Some entries -> getSpanContext context = None ->
         inject defaultTextMapSetter this context []
         = (Ok tt, objectOf (baggageWrites entries)))
  /\ (forall context next,
         getBaggage context = None ->
         exists c next',
           extract defaultTextMapGetter this context
             (objectOf (baggageWrites entries)) next = Ok (c, next')
           /\ entriesOf (getBaggage c) = plainEntries entries).
Proof.
  intros Hnd Hall.
  assert (Hwf : forall k e, In (k, e) entries ->
                            JS.isWellFormed (value e) = true)
    by (intros k e Hin; apply (Hall k e Hin)).
  assert (Hinj : forall (Carrier : Type) (setter : TextMapSetter Carrier)
                        context carrier,
             getBaggage context = Some entries ->
             inject setter this context carrier
             = (Ok tt,
                applyWrites setter
                  (traceWrites this context ++ baggageWrites entries) carrier)).
  { intros Carrier setter context carrier Hb.
    rewrite inject_unfold, Hb; cbn [entriesOf getAllEntries].
    rewrite injectEntries_wellFormed by exact Hwf.
    now rewrite applyWrites_app. }
  split; [exact Hinj|split].
  - intros context Hb Hsc.
    rewrite (Hinj _ defaultTextMapSetter context [] Hb).
    unfold traceWrites; rewrite Hsc; cbn [app].
    rewrite applyWrites_object;
      [reflexivity| |intros k _ []|apply baggageWrites_ordinary].
    now apply baggageWrites_NoDup.
  - intros context next Hb.
    rewrite extract_unfold.
    destruct (extract_newContext _ defaultTextMapGetter this context
                (objectOf (baggageWrites entries)) next)
      as [[_ (h & Hh & Hthrow)] | (c0 & n0 & -> & _ & _ & Hb0 & _)].
    { exfalso; cbn [get defaultTextMapGetter] in Hh.
      destruct (objGet_objectOf (baggageWrites entries)
                  (_jaegerTraceHeader this)) as [E|(k & v & Hin & E)];
        rewrite E in Hh; [discriminate|].
      injection Hh as <-.
      unfold baggageWrites in Hin; apply in_map_iff in Hin.
      destruct Hin as ([k' e] & [= _ <-] & Hin); cbn [snd] in Hthrow.
      destruct (Hall k' e Hin) as (_ & H1 & H2).
      rewrite encodedValue_decodes in Hthrow by assumption; discriminate. }
    rewrite baggageValuesOf_object;
      [|exact Hnd|intros k e Hin; apply (Hall k e Hin)].
    destruct entries as [|ke entries'].
    + cbn [map]; exists c0, n0; split; [reflexivity|].
      rewrite Hb0, Hb; reflexivity.
    + set (vals := map (fun ke0 => (fst ke0, Some (encodedValue (snd ke0))))
                     (ke :: entries')).
      change (match vals with
              | [] => Ok (c0, n0)
              | _ :: _ =>
                  match
                    mergeBaggageValues vals
                      (match getBaggage context with
                       | Some b => b
                       | None => createBaggage
                       end)
                  with
                  | Ok currentBaggage => setBaggage c0 currentBaggage n0
                  | Throw e => Throw e
                  end
              end)
        with (match
                 mergeBaggageValues vals
                   (match getBaggage context with
                    | Some b => b
                    | None => createBaggage
                    end)
               with
               | Ok currentBaggage => setBaggage c0 currentBaggage n0
               | Throw e => Throw e
               end).
      subst vals; rewrite Hb, mergeBaggageValues_encoded;
        [|exact Hnd|intros k _ []|intros k e Hin; apply (Hall k e Hin)].
      unfold setBaggage; eexists; eexists; split; reflexivity.
Qed.

(** ** Concrete runs *)

Lemma baggage_roundtrip_witness :
  let entries :=
    [(lit "key1", mkEntry (lit "value1") None);
     (lit "key2", mkEntry (lit "value 2/$") None)] in
  let this := newJaegerPropagator None in
  (forall (Carrier : Type) (setter : TextMapSetter Carrier) context carrier,
      getBaggage context = Some entries ->
      inject setter this context carrier
      = (Ok tt,
         applyWrites setter
           (traceWrites this context
            ++ [(lit "uberctx-key1", lit "value1");
                (lit "uberctx-key2", lit "value%202%2F%24")]) carrier))
  /\ (forall context,
         getBaggage context = Some entries -> getSpanContext context = None ->
         inject defaultTextMapSetter this context []
         = (Ok tt,
            [(lit "uberctx-key1", HString (lit "value1"));
             (lit "uberctx-key2", HString (lit "value%202%2F%24"))]))
  /\ (forall context next,
         getBaggage context = None ->
         exists c next',
           extract defaultTextMapGetter this context
             [(lit "uberctx-key1", HString (lit "value1"));
              (lit "uberctx-key2", HString (lit "value%202%2F%24"))] next
           = Ok (c, next')
           /\ entriesOf (getBaggage c) = entries).
Proof.
  refine (baggage_roundtrip (newJaegerPropagator None)
            [(lit "key1", mkEntry (lit "value1") None);
             (lit "key2", mkEntry (lit "value 2/$") None)] _ _).
  - repeat constructor; cbn [In]; intros H;
      repeat (destruct H as [H|H]; [discriminate H|]); exact H.
  - intros k e [E|[E|[]]]; injection E as <- <-; repeat split; reflexivity.
Defined.

(** C9 fails on an empty key: the header "uberctx-" is written but never
    matched, so [extract] hands back the context without any baggage; and on a
    value with a lone surrogate [inject] throws. *)
Lemma baggage_roundtrip_counterexample :
  let this := newJaegerPropagator None in
  inject defaultTextMapSetter this
    (mkContext 0 None (Some [(lit "", mkEntry (lit "v") None)]) false) []
  = (Ok tt, [(lit "uberctx-", HString (lit "v"))])
  /\ extract defaultTextMapGetter this (mkContext 1 None None false)
       [(lit "uberctx-", HString (lit "v"))] 2
     = Ok (mkContext 1 None None false, 2%nat)
  /\ inject defaultTextMapSetter this
       (mkContext 0 None (Some [(lit "k", mkEntry [0xD800] None)]) false) []
     = (Throw URIError, []).
Proof. repeat split. Qed.

Lemma inject_trace_header_value_witness :
  let sc := mkSpanContext (lit "d4cda95b652f4a1592b449d5929fda1b")
                          (lit "6e0c63257de34c92") false 255 in
  let context := mkContext 0 (Some sc) None false in
  inject recordingSetter (newJaegerPropagator None) context []
  = injectEntries recordingSetter []
      [(lit "uber-trace-id",
        lit "d4cda95b652f4a1592b449d5929fda1b:6e0c63257de34c92:0:0ff")]
  /\ readHex (JS.toString16 255) = 255
  /\ forallb isLowerHexChar (JS.toString16 255) = true
  /\ (255 = 0 -> lit "0" ++ JS.toString16 255 = lit "00")
  /\ (15 < 255 -> (2 < List.length (lit "0" ++ JS.toString16 255))%nat).
Proof.
  exact (inject_trace_header_value WriteLog recordingSetter
           (newJaegerPropagator None)
           (mkContext 0
              (Some (mkSpanContext (lit "d4cda95b652f4a1592b449d5929fda1b")
                                   (lit "6e0c63257de34c92") false 255))
              None false)
           []
           (mkSpanContext (lit "d4cda95b652f4a1592b449d5929fda1b")
                          (lit "6e0c63257de34c92") false 255)
           eq_refl eq_refl).
Defined.

Lemma inject_suppressed_baggage_only_witness :
  let sc := mkSpanContext (lit "d4cda95b652f4a1592b449d5929fda1b")
                          (lit "6e0c63257de34c92") false 1 in
  let bag := [(lit "key1", mkEntry (lit "value1") None);
              (lit "key2", mkEntry (lit "value 2/$") None)] in
  let this := newJaegerPropagator None in
  inject recordingSetter this (mkContext 0 (Some sc) (Some bag) true) []
  = (Ok tt,
     [(lit "uberctx-key1", lit "value1");
      (lit "uberctx-key2", lit "value%202%2F%24")])
  /\ forall context',
      getBaggage context' = Some bag ->
      inject recordingSetter this context' []
      = (Ok tt,
         applyWrites recordingSetter
           (traceWrites this context'
            ++ [(lit "uberctx-key1", lit "value1");
                (lit "uberctx-key2", lit "value%202%2F%24")]) []).
Proof.
  refine (inject_suppressed_baggage_only WriteLog recordingSetter
            (newJaegerPropagator None)
            (mkContext 0
               (Some (mkSpanContext (lit "d4cda95b652f4a1592b449d5929fda1b")
                                    (lit "6e0c63257de34c92") false 1))
               (Some [(lit "key1", mkEntry (lit "value1") None);
                      (lit "key2", mkEntry (lit "value 2/$") None)])
               true)
            [] eq_refl _).
  intros k e [E|[E|[]]]; injection E as <- <-; reflexivity.
Defined.

(** C5 fails on a baggage value with a lone surrogate: [encodeURIComponent]
    throws at the first entry and no baggage header is written at all. *)
Lemma inject_suppressed_counterexample :
  inject recordingSetter (newJaegerPropagator None)
    (mkContext 0
       (Some (mkSpanContext (lit "d4cda95b652f4a1592b449d5929fda1b")
                            (lit "6e0c63257de34c92") false 1))
       (Some [(lit "a", mkEntry [0xD800] None);
              (lit "b", mkEntry (lit "x") None)])
       true)
    []
  = (Throw URIError, []).
Proof. reflexivity. Qed.

(** C1 fails on a malformed percent escape: "%" makes
    [deserializeSpanContext] and [extract] throw, and a lone surrogate in a
    baggage value makes [inject] throw. *)
Lemma core_throws_counterexample :
  deserializeSpanContext (lit "%") = Throw URIError
  /\ extract defaultTextMapGetter (newJaegerPropagator None)
       (mkContext 0 None None false)
       [(lit "uber-trace-id", HString (lit "%"))] 1
     = Throw URIError
  /\ extract defaultTextMapGetter (newJaegerPropagator None)
       (mkContext 0 None None false)
       [(lit "uberctx-k", HString (lit "%zz"))] 1
     = Throw URIError
  /\ fst (inject defaultTextMapSetter (newJaegerPropagator None)
            (mkContext 0 None (Some [(lit "k", mkEntry [0xDC00] None)]) false)
            [])
     = Throw URIError.
Proof. repeat split. Qed.

Lemma extract_identity_noop_witness :
  let this := newJaegerPropagator None in
  let context := mkContext 0 None (Some [(lit "k", mkEntry (lit "v") None)]) false in
  extract defaultTextMapGetter this context
    [(lit "uber-trace-id", HString (lit "a:b:0")); (lit "uberctx", HString (lit "x"))]
    1
  = Ok (context, 1%nat)
  /\ forall context' carrier' c next',
      extract defaultTextMapGetter this context' carrier' 1 = Ok (c, next') ->
      c = context' \/ (1 <= ctxId c)%nat.
Proof.
  refine (extract_identity_noop ObjectCarrier defaultTextMapGetter
            (newJaegerPropagator None)
            (mkContext 0 None (Some [(lit "k", mkEntry (lit "v") None)]) false)
            [(lit "uber-trace-id", HString (lit "a:b:0"));
             (lit "uberctx", HString (lit "x"))]
            1 _ _).
  - right; exists (lit "a:b:0"); split; reflexivity.
  - intros key [<-|[<-|[]]]; reflexivity.
Defined.

Lemma extract_undefined_baggage_values_witness :
  let context := mkContext 0 None None false in
  exists c next',
    extract defaultTextMapGetter (newJaegerPropagator None) context
      [(lit "uberctx-a", HUndefined); (lit "UberCtx-b", HArray [])] 1
    = Ok (c, next')
    /\ getBaggage c = Some createBaggage
    /\ ctxId c <> ctxId context
    /\ c <> context.
Proof.
  refine (extract_undefined_baggage_values ObjectCarrier defaultTextMapGetter
            (newJaegerPropagator None) (mkContext 0 None None false)
            [(lit "uberctx-a", HUndefined); (lit "UberCtx-b", HArray [])]
            1 _ _ _ _).
  - exists (lit "uberctx-a"); split; [now left|reflexivity].
  - intros key [<-|[<-|[]]] _; reflexivity.
  - intros h H; discriminate H.
  - cbn [ctxId]; lia.
Defined.

(** C10 fails when the trace header does not percent-decode: a baggage key
    matches and its value is undefined, yet [extract] throws instead of
    returning a context. *)
Lemma extract_undefined_baggage_counterexample :
  let carrier : ObjectCarrier :=
    [(lit "uber-trace-id", HString (lit "%")); (lit "uberctx-a", HUndefined)] in
  filter UBER_BAGGAGE_HEADER_REGEX_test (keys defaultTextMapGetter carrier)
  = [lit "uberctx-a"]
  /\ get defaultTextMapGetter carrier (lit "uberctx-a") = HUndefined
  /\ extract defaultTextMapGetter (newJaegerPropagator None)
       (mkContext 0 None None false) carrier 1
     = Throw URIError.
Proof. repeat split. Qed.

(** * Further properties of the propagator *)

(** ** deserializeSpanContext on joined fields *)

Lemma plainField_Forall (f : jsstring) :
  plainField f = true ->
  Forall (fun c => c <> 37) f /\ Forall (fun c => c <> 58) f.
Proof.
  unfold plainField; intros H; rewrite forallb_forall in H.
  split; apply Forall_forall; intros c Hc; specialize (H c Hc);
    apply andb_true_iff in H; destruct H as [H1 H2];
    apply negb_true_iff in H1, H2; intros ->; discriminate.
Qed.

Lemma split_joinFields (sep : N) (fields : list jsstring) :
  fields <> [] ->
  Forall (Forall (fun c => c <> sep)) fields ->
  JS.split sep (joinFields sep fields) = fields.
Proof.
  intros Hne H; induction H as [|f rest Hf Hrest IH]; [contradiction|].
  destruct rest as [|g rest'].
  - cbn [joinFields]; now apply split_nosep.
  - change (joinFields sep (f :: g :: rest'))
      with (f ++ sep :: joinFields sep (g :: rest')).
    rewrite split_app_sep by assumption.
    rewrite IH by discriminate; reflexivity.
Qed.

Lemma joinFields_plain (sep c0 : N) (fields : list jsstring) :
  sep <> c0 ->
  Forall (Forall (fun c => c <> c0)) fields ->
  Forall (fun c => c <> c0) (joinFields sep fields).
Proof.
  intros Hsep H; induction H as [|f rest Hf Hrest IH]; [constructor|].
  destruct rest as [|g rest']; [exact Hf|].
  change (joinFields sep (f :: g :: rest'))
    with (f ++ sep :: joinFields sep (g :: rest')).
  apply Forall_app; split; [exact Hf|constructor; [exact Hsep|exact IH]].
Qed.

Lemma plainFields_Forall (fields : list jsstring) :
  forallb plainField fields = true ->
  Forall (Forall (fun c => c <> 37)) fields
  /\ Forall (Forall (fun c => c <> 58)) fields.
Proof.
  intros H; rewrite forallb_forall in H.
  split; apply Forall_forall; intros f Hf; apply plainField_Forall; auto.
Qed.

Lemma deserializeSpanContext_joined (fields : list jsstring) :
  fields <> [] -> forallb plainField fields = true ->
  JS.decodeURIComponent (joinFields 58 fields) = Ok (joinFields 58 fields)
  /\ JS.split 58 (joinFields 58 fields) = fields.
Proof.
  intros Hne H; destruct (plainFields_Forall fields H) as [H37 H58]; split.
  - apply decodeURIComponent_plain, joinFields_plain; [discriminate|exact H37].
  - now apply split_joinFields.
Qed.

(** X1. Fields free of '%' and ':' joined with ':' are rejected exactly when
    their number is not four. *)
Theorem decode_joined_field_count (fields : list jsstring) :
  fields <> [] -> forallb plainField fields = true ->
  deserializeSpanContext (joinFields 58 fields) = Ok None
  <-> List.length fields <> 4%nat.
Proof.
  intros Hne H.
  destruct (deserializeSpanContext_joined fields Hne H) as [Hd Hs].
  unfold deserializeSpanContext; rewrite Hd; cbn [bindR]; rewrite Hs.
  destruct fields as [|a [|b [|c [|f [|g t]]]]]; cbn [List.length];
    split; intros H0; try reflexivity; try discriminate; lia.
Qed.

Lemma decode_joined_field_count_witness :
  deserializeSpanContext
    (joinFields 58 [lit "a"; lit "b"; lit "0"; lit "1"; lit "2"; lit "3"])
  = Ok None
  <-> List.length [lit "a"; lit "b"; lit "0"; lit "1"; lit "2"; lit "3"]
      <> 4%nat.
Proof.
  apply (decode_joined_field_count
           [lit "a"; lit "b"; lit "0"; lit "1"; lit "2"; lit "3"]);
    [discriminate|reflexivity].
Defined.

(** X2. The third field, the parent span id, never influences the result:
    four plain fields decode to the padded first field, the second field and
    the flags of the fourth, whatever the third one is. *)
Theorem decode_ignores_parent_span_id (a b c1 c2 f : jsstring) :
  forallb plainField [a; b; c1; c2; f] = true ->
  deserializeSpanContext (joinFields 58 [a; b; c1; f])
  = deserializeSpanContext (joinFields 58 [a; b; c2; f])
  /\ deserializeSpanContext (joinFields 58 [a; b; c1; f])
     = Ok (Some (mkSpanContext (JS.padStart 32 48 a) b true
                   (if flagsRegexMatch f then JS.bitAnd1 (JS.parseInt f)
                    else 1))).
Proof.
  intros H; cbn [forallb] in H.
  repeat (apply andb_true_iff in H; destruct H as [? H]).
  assert (E : forall c, plainField c = true ->
            deserializeSpanContext (joinFields 58 [a; b; c; f])
            = Ok (Some (mkSpanContext (JS.padStart 32 48 a) b true
                          (if flagsRegexMatch f then JS.bitAnd1 (JS.parseInt f)
                           else 1)))).
  { intros c Hc.
    destruct (deserializeSpanContext_joined [a; b; c; f]) as [Hd Hs];
      [discriminate|cbn [forallb]; repeat (apply andb_true_iff; split); auto|].
    exact (deserializeSpanContext_fields _ _ a b c f Hd Hs). }
  split; [now rewrite !E|now apply E].
Qed.

Lemma decode_ignores_parent_span_id_witness :
  deserializeSpanContext
    (joinFields 58 [lit "abc"; lit "def"; lit "0"; lit "01"])
  = deserializeSpanContext
      (joinFields 58 [lit "abc"; lit "def"; lit "ffff"; lit "01"])
  /\ deserializeSpanContext
       (joinFields 58 [lit "abc"; lit "def"; lit "0"; lit "01"])
     = Ok (Some (mkSpanContext (JS.padStart 32 48 (lit "abc")) (lit "def") true
                   (if flagsRegexMatch (lit "01")
                    then JS.bitAnd1 (JS.parseInt (lit "01")) else 1))).
Proof.
  apply (decode_ignores_parent_span_id
           (lit "abc") (lit "def") (lit "0") (lit "ffff") (lit "01"));
    reflexivity.
Defined.

(** X3. A header value without '%' that an intermediary percent-encoded as a
    whole decodes to the same result as the value itself. *)
Theorem decode_of_percent_encoded_header (s : jsstring) :
  JS.isWellFormed s = true -> validUnits s = true ->
  forallb (fun c => negb (c =? 37)) s = true ->
  exists e,
    JS.encodeURIComponent s = Ok e
    /\ deserializeSpanContext e = deserializeSpanContext s.
Proof.
  intros Hwf Hv Hp.
  destruct (decodeURIComponent_encodeURIComponent s Hwf Hv) as (e & He & Hd).
  exists e; split; [exact He|].
  unfold deserializeSpanContext; rewrite Hd.
  rewrite decodeURIComponent_plain; [reflexivity|].
  rewrite forallb_forall in Hp; apply Forall_forall; intros c Hc.
  specialize (Hp c Hc); apply negb_true_iff in Hp.
  intros ->; discriminate.
Qed.

Lemma decode_of_percent_encoded_header_witness :
  exists e,
    JS.encodeURIComponent (lit "abc:def:0:01") = Ok e
    /\ deserializeSpanContext e = deserializeSpanContext (lit "abc:def:0:01").
Proof.
  apply (decode_of_percent_encoded_header (lit "abc:def:0:01")); reflexivity.
Defined.

Lemma split_fields_nosep (sep : N) (s : jsstring) :
  Forall (fun f => ~ In sep f) (JS.split sep s).
Proof.
  induction s as [|c s IH]; cbn [JS.split].
  - repeat constructor; intros [].
  - destruct (N.eqb_spec c sep) as [->|Hc].
    + constructor; [intros []|exact IH].
    + destruct (JS.split sep s) as [|h t]; [repeat constructor|].
      * intros [E|[]]; now apply Hc.
      * inversion IH as [|? ? Hh Ht]; subst; constructor; [|exact Ht].
        intros [E|Hin]; [now apply Hc|now apply Hh].
Qed.

Lemma bitAnd1_le (x : JS.Number) : JS.bitAnd1 x <= 1.
Proof.
  destruct x as [|neg n]; cbn [JS.bitAnd1]; [lia|].
  destruct (land1_cases n) as [-> | ->]; lia.
Qed.

(** X4. Every span context that [deserializeSpanContext] returns is remote,
    has a traceId of at least 32 code units, has traceFlags 0 or 1, and has no
    ':' in its traceId or spanId. *)
Theorem decode_result_invariants (s : jsstring) (sc : SpanContext) :
  deserializeSpanContext s = Ok (Some sc) ->
  isRemote sc = true
  /\ (32 <= List.length (traceId sc))%nat
  /\ traceFlags sc <= 1
  /\ ~ In 58 (traceId sc)
  /\ ~ In 58 (spanId sc).
Proof.
  unfold deserializeSpanContext.
  destruct (JS.decodeURIComponent s) as [d|e]; cbn [bindR]; [|discriminate].
  pose proof (split_fields_nosep 58 d) as Hns.
  destruct (JS.split 58 d) as [|a [|b [|c [|f [|g t]]]]]; try discriminate.
  intros [= <-]; cbn [isRemote traceId spanId traceFlags].
  inversion Hns as [|? ? Ha Hns1]; subst.
  inversion Hns1 as [|? ? Hb _]; subst.
  split; [reflexivity|]; split; [|split; [|split]].
  - unfold JS.padStart; rewrite length_app, repeat_length; lia.
  - destruct (flagsRegexMatch f); [apply bitAnd1_le|lia].
  - unfold JS.padStart; rewrite in_app_iff; intros [H|H]; [|now apply Ha].
    apply repeat_spec in H; discriminate.
  - exact Hb.
Qed.

Lemma decode_result_invariants_witness :
  let sc := mkSpanContext (JS.padStart 32 48 (lit "a b")) (lit "%") true 1 in
  isRemote sc = true
  /\ (32 <= List.length (traceId sc))%nat
  /\ traceFlags sc <= 1
  /\ ~ In 58 (traceId sc)
  /\ ~ In 58 (spanId sc).
Proof.
  apply (decode_result_invariants (lit "a%20b:%25:x:y")); reflexivity.
Defined.

Lemma flags_quirk_table :
  forallb (fun x =>
    forallb (fun y =>
      JS.bitAnd1 (JS.parseInt [x; y])
      =? (if JS.isDigit x then
            if JS.isDigit y then N.land (readHex [x; y]) 1
            else N.land (x - 48) 1
          else 0)) hexChars)
    hexChars = true.
Proof. vm_compute; reflexivity. Qed.

(** X5. A flags field of two hexadecimal digits is read in radix 10: when
    both digits are decimal the result is the sampled bit of the byte read as
    hexadecimal; when only the first is decimal it is the parity of that
    digit; when the first is a letter it is 0. *)
Theorem decode_flags_decimal_quirk (s d a b c : jsstring) (x y : N) :
  JS.decodeURIComponent s = Ok d -> JS.split 58 d = [a; b; c; [x; y]] ->
  JS.isHexDigit x = true -> JS.isHexDigit y = true ->
  exists sc,
    deserializeSpanContext s = Ok (Some sc)
    /\ traceFlags sc
       = if JS.isDigit x then
           if JS.isDigit y then N.land (readHex [x; y]) 1
           else N.land (x - 48) 1
         else 0.
Proof.
  intros Hd Hs Hx Hy; eexists; split;
    [exact (deserializeSpanContext_fields s d a b c [x; y] Hd Hs)|].
  cbn [traceFlags]; unfold flagsRegexMatch; rewrite Hx, Hy; cbn [andb].
  pose proof flags_quirk_table as T.
  rewrite forallb_forall in T.
  specialize (T x (isHexDigit_hexChars x Hx)).
  rewrite forallb_forall in T.
  specialize (T y (isHexDigit_hexChars y Hy)).
  now apply N.eqb_eq in T.
Qed.

Lemma decode_flags_decimal_quirk_witness :
  exists sc,
    deserializeSpanContext (lit "a:b:0:0b") = Ok (Some sc)
    /\ traceFlags sc
       = if JS.isDigit 48 then
           if JS.isDigit 98 then N.land (readHex [48; 98]) 1
           else N.land (48 - 48) 1
         else 0.
Proof.
  apply (decode_flags_decimal_quirk (lit "a:b:0:0b") (lit "a:b:0:0b")
           (lit "a") (lit "b") (lit "0") 48 98); reflexivity.
Defined.

(** ** Trace header round trip for every traceFlags value *)

Lemma toString16_small (fl : N) : fl < 16 -> JS.toString16 fl = [JS.hexLower fl].
Proof.
  intros H.
  assert (E : In fl [0; 1; 2; 3; 4; 5; 6; 7; 8; 9; 10; 11; 12; 13; 14; 15])
    by (cbn [In]; lia).
  cbn [In] in E.
  repeat (destruct E as [<-|E]; [reflexivity|]); destruct E.
Qed.

Lemma flagsField_roundTrip (fl : N) :
  (if flagsRegexMatch (48 :: JS.toString16 fl)
   then JS.bitAnd1 (JS.parseInt (48 :: JS.toString16 fl)) else 1)
  = roundTripFlags fl.
Proof.
  unfold roundTripFlags.
  destruct (N.ltb_spec fl 16) as [H|H].
  - rewrite toString16_small by assumption.
    assert (E : In fl [0; 1; 2; 3; 4; 5; 6; 7; 8; 9; 10; 11; 12; 13; 14; 15])
      by (cbn [In]; lia).
    cbn [In] in E.
    repeat (destruct E as [<-|E]; [reflexivity|]); destruct E.
  - destruct (N.ltb_spec fl 10); [lia|].
    pose proof (toString16_long fl ltac:(lia)) as L.
    destruct (JS.toString16 fl) as [|x [|y t]]; cbn [List.length] in L;
      try lia; reflexivity.
Qed.

Lemma serializeSpanContext_joined (sc : SpanContext) :
  serializeSpanContext sc
  = joinFields 58
      [traceId sc; spanId sc; [48]; 48 :: JS.toString16 (traceFlags sc)].
Proof.
  unfold serializeSpanContext, traceFlagsField, TraceFlags_NONE.
  destruct (N.eqb_spec (traceFlags sc) 0) as [->|_]; reflexivity.
Qed.

Lemma hex_plainField (s : jsstring) :
  forallb JS.isHexDigit s = true -> plainField s = true.
Proof.
  unfold plainField; intros H; rewrite forallb_forall in *.
  intros c Hc; destruct (isHexDigit_plain c (H c Hc)) as [H1 H2].
  apply N.eqb_neq in H1, H2; now rewrite H1, H2.
Qed.

Lemma lowerHex_plainField (s : jsstring) :
  forallb isLowerHexChar s = true -> plainField s = true.
Proof.
  unfold plainField; intros H; rewrite forallb_forall in *.
  intros c Hc; specialize (H c Hc).
  unfold isLowerHexChar, JS.isDigit in H.
  destruct (N.eqb_spec c 37) as [->|_]; [discriminate|].
  destruct (N.eqb_spec c 58) as [->|_]; [discriminate|reflexivity].
Qed.

Lemma deserialize_serialized (sc : SpanContext) :
  List.length (traceId sc) = 32%nat ->
  forallb JS.isHexDigit (traceId sc) = true ->
  forallb JS.isHexDigit (spanId sc) = true ->
  JS.decodeURIComponent (serializeSpanContext sc) = Ok (serializeSpanContext sc)
  /\ deserializeSpanContext (serializeSpanContext sc)
     = Ok (Some (mkSpanContext (traceId sc) (spanId sc) true
                   (roundTripFlags (traceFlags sc)))).
Proof.
  intros Hlen Ht Hs; rewrite serializeSpanContext_joined.
  destruct (deserializeSpanContext_joined
              [traceId sc; spanId sc; [48];
               48 :: JS.toString16 (traceFlags sc)]) as [Hd Hsp];
    [discriminate| |].
  { assert (Hf : plainField (48 :: JS.toString16 (traceFlags sc)) = true).
    { change (plainField (48 :: JS.toString16 (traceFlags sc)))
        with (plainField (JS.toString16 (traceFlags sc))).
      apply lowerHex_plainField, toString16_spec. }
    cbn [forallb]; rewrite (hex_plainField _ Ht), (hex_plainField _ Hs), Hf.
    reflexivity. }
  split; [exact Hd|].
  rewrite (deserializeSpanContext_fields _ _ _ _ _ _ Hd Hsp).
  rewrite flagsField_roundTrip; unfold JS.padStart; rewrite Hlen; reflexivity.
Qed.

(** X6. Encoding then decoding a span context with hexadecimal identifiers
    keeps the identifiers and sets isRemote; of traceFlags only this is left:
    the sampled bit when traceFlags is below 10, 0 for 10 to 15 (the field
    "0a" to "0f" read in radix 10), and 1 from 16 on (the field is then longer
    than two digits). *)
Theorem decode_encode_any_flags (sc : SpanContext) :
  List.length (traceId sc) = 32%nat ->
  forallb JS.isHexDigit (traceId sc) = true ->
  forallb JS.isHexDigit (spanId sc) = true ->
  deserializeSpanContext (serializeSpanContext sc)
  = Ok (Some (mkSpanContext (traceId sc) (spanId sc) true
                (roundTripFlags (traceFlags sc)))).
Proof. intros Hlen Ht Hs; now apply deserialize_serialized. Qed.

Lemma decode_encode_any_flags_witness :
  deserializeSpanContext
    (serializeSpanContext
       (mkSpanContext (lit "d4cda95b652f4a1592b449d5929fda1b")
                      (lit "6e0c63257de34c92") false 11))
  = Ok (Some (mkSpanContext (lit "d4cda95b652f4a1592b449d5929fda1b")
                            (lit "6e0c63257de34c92") true 0)).
Proof.
  apply (decode_encode_any_flags
           (mkSpanContext (lit "d4cda95b652f4a1592b449d5929fda1b")
                          (lit "6e0c63257de34c92") false 11)); reflexivity.
Defined.

(** ** The baggage merge of extract *)

Lemma getEntry_setEntry_same (b : Baggage) (key : jsstring) (e : BaggageEntry) :
  getEntry (setEntry b key e) key = Some e.
Proof.
  induction b as [|[k x] b IH]; cbn [setEntry getEntry].
  - now rewrite eqstr_refl.
  - destruct (eqstr k key) eqn:E; cbn [getEntry]; rewrite E; auto.
Qed.

Lemma getEntry_setEntry_other (b : Baggage) (key key' : jsstring)
  (e : BaggageEntry) :
  key <> key' -> getEntry (setEntry b key e) key' = getEntry b key'.
Proof.
  intros Hne; induction b as [|[k x] b IH]; cbn [setEntry getEntry].
  - now rewrite eqstr_neq.
  - destruct (eqstr k key) eqn:E; cbn [getEntry].
    + apply eqstr_eq in E; subst k; now rewrite eqstr_neq.
    + now rewrite IH.
Qed.

Lemma setEntry_keys (b : Baggage) (key : jsstring) (e : BaggageEntry) :
  (In key (map fst b) /\ map fst (setEntry b key e) = map fst b)
  \/ (~ In key (map fst b) /\ map fst (setEntry b key e) = map fst b ++ [key]).
Proof.
  induction b as [|[k x] b IH]; cbn [setEntry map fst In app].
  - right; split; [tauto|reflexivity].
  - destruct (eqstr k key) eqn:E; cbn [map fst].
    + apply eqstr_eq in E; left; split; [now left|reflexivity].
    + assert (k <> key) by (intros ->; rewrite eqstr_refl in E; discriminate).
      destruct IH as [[Hin ->] | [Hnin ->]];
        [left; split; [now right|reflexivity]|right; split; [tauto|reflexivity]].
Qed.

Lemma mergeBaggageValues_app (l1 l2 : list (jsstring * option jsstring)) :
  forall b,
    mergeBaggageValues (l1 ++ l2) b
    = (b1 <-- mergeBaggageValues l1 b ;; mergeBaggageValues l2 b1).
Proof.
  induction l1 as [|[k [v|]] l1 IH]; intros b; cbn [app mergeBaggageValues].
  - reflexivity.
  - destruct (JS.decodeURIComponent v); cbn [bindR]; [apply IH|reflexivity].
  - apply IH.
Qed.

Lemma mergeBaggageValues_untouched (vals : list (jsstring * option jsstring))
  (key : jsstring) :
  forall b b',
    (forall v, ~ In (key, Some v) vals) ->
    mergeBaggageValues vals b = Ok b' ->
    getEntry b' key = getEntry b key.
Proof.
  induction vals as [|[k [v|]] vals IH]; intros b b' Hno;
    cbn [mergeBaggageValues].
  - now intros [= <-].
  - destruct (JS.decodeURIComponent v) as [d|e]; cbn [bindR]; [|discriminate].
    intros Hm.
    rewrite (IH _ _ (fun v' H => Hno v' (or_intror H)) Hm).
    apply getEntry_setEntry_other.
    intros ->; apply (Hno v); now left.
  - apply IH; intros v' H; apply (Hno v'); now right.
Qed.

Lemma mergeBaggageValues_last (l1 l2 : list (jsstring * option jsstring))
  (key v d : jsstring) (b b' : Baggage) :
  (forall v', ~ In (key, Some v') l2) ->
  JS.decodeURIComponent v = Ok d ->
  mergeBaggageValues (l1 ++ (key, Some v) :: l2) b = Ok b' ->
  getEntry b' key = Some (mkEntry d None).
Proof.
  intros Hno Hd; rewrite mergeBaggageValues_app.
  destruct (mergeBaggageValues l1 b) as [b1|e]; cbn [bindR]; [|discriminate].
  cbn [mergeBaggageValues]; rewrite Hd; cbn [bindR]; intros Hm.
  rewrite (mergeBaggageValues_untouched l2 key _ _ Hno Hm).
  apply getEntry_setEntry_same.
Qed.

Lemma mergeBaggageValues_keys (vals : list (jsstring * option jsstring)) :
  forall b b',
    mergeBaggageValues vals b = Ok b' ->
    exists added,
      map fst b' = map fst b ++ added
      /\ (NoDup (map fst b) -> NoDup (map fst b'))
      /\ (forall k, In k added -> exists v, In (k, Some v) vals).
Proof.
  induction vals as [|[k [v|]] vals IH]; intros b b'; cbn [mergeBaggageValues].
  - intros [= <-]; exists []; rewrite app_nil_r.
    split; [reflexivity|split; [auto|intros k []]].
  - destruct (JS.decodeURIComponent v) as [d|e]; cbn [bindR]; [|discriminate].
    intros Hm; destruct (IH _ _ Hm) as (added & Hk & Hnd & Hadd).
    destruct (setEntry_keys b k (mkEntry d None)) as [[Hin E] | [Hnin E]];
      rewrite E in Hk, Hnd.
    + exists added; split; [exact Hk|split; [exact Hnd|]].
      intros k' Hk'; destruct (Hadd k' Hk') as [v' Hv']; exists v'; now right.
    + exists (k :: added); split; [now rewrite Hk, <- app_assoc|split].
      * intros H; apply Hnd.
        apply NoDup_app; [exact H|repeat constructor; intros []|].
        intros x Hx [<-|[]]; contradiction.
      * intros k' [<-|Hk']; [exists v; now left|].
        destruct (Hadd k' Hk') as [v' Hv']; exists v'; now right.
  - intros Hm; destruct (IH _ _ Hm) as (added & Hk & Hnd & Hadd).
    exists added; split; [exact Hk|split; [exact Hnd|]].
    intros k' Hk'; destruct (Hadd k' Hk') as [v' Hv']; exists v'; now right.
Qed.

Lemma test_capturable (name : jsstring) :
  UBER_BAGGAGE_HEADER_REGEX_test name = true ->
  exists key,
    JS.stripPrefixIgnoreCase (lit "uberctx-") name = Some key
    /\ JS.substring (List.length UBER_BAGGAGE_HEADER_PREFIX + 1) name = key
    /\ capturableKey key = true.
Proof.
  unfold UBER_BAGGAGE_HEADER_REGEX_test.
  change (lit "uberctx-") with [117; 98; 101; 114; 99; 116; 120; 45].
  change (List.length UBER_BAGGAGE_HEADER_PREFIX + 1)%nat with 8%nat.
  destruct name as [|c1 [|c2 [|c3 [|c4 [|c5 [|c6 [|c7 [|c8 rest]]]]]]]];
    cbn [JS.stripPrefixIgnoreCase];
    repeat match goal with
           | |- context [if ?t then _ else _] => destruct t
           end;
    try discriminate.
  destruct rest as [|c rest]; [discriminate|].
  intros H; exists (c :: rest); auto.
Qed.

Section ExtractFacts.

Variable Carrier : Type.
Variable getter : TextMapGetter Carrier.
Variable this : JaegerPropagator.

Lemma baggageValuesOf_key (carrier : Carrier) (key : jsstring)
  (v : option jsstring) :
  In (key, v) (baggageValuesOf getter carrier) -> capturableKey key = true.
Proof.
  unfold baggageValuesOf; intros H.
  apply in_map_iff in H; destruct H as (name & E & Hin).
  apply filter_In in Hin; destruct Hin as [_ Ht].
  destruct (test_capturable name Ht) as (k & _ & Hsub & Hcap).
  injection E as Ek _; subst k key; exact Hcap.
Qed.

Lemma extract_Ok_baggage (context : Context) (carrier : Carrier)
  (next : nat) (c : Context) (next' : nat) :
  extract getter this context carrier next = Ok (c, next') ->
  (baggageValuesOf getter carrier = [] /\ getBaggage c = getBaggage context)
  \/ (exists b',
         mergeBaggageValues (baggageValuesOf getter carrier)
           (entriesOf (getBaggage context)) = Ok b'
         /\ getBaggage c = Some b').
Proof.
  rewrite extract_unfold.
  destruct (extract_newContext Carrier getter this context carrier next)
    as [[-> _] | (c0 & n0 & -> & _ & _ & Hb0 & _)]; [discriminate|].
  destruct (baggageValuesOf getter carrier) as [|bv l] eqn:Hbv.
  - intros [= <- <-]; left; split; [reflexivity|exact Hb0].
  - change (match getBaggage context with
            | Some b => b
            | None => createBaggage
            end) with (entriesOf (getBaggage context)).
    destruct (mergeBaggageValues (bv :: l) (entriesOf (getBaggage context)))
      as [b'|e]; [|discriminate].
    unfold setBaggage; intros [= <- <-]; right; exists b'; split; reflexivity.
Qed.

(** X7. When nothing fails to percent-decode, [extract] returns a context
    with the suppression flag of the given one, with the span context decoded
    from the trace header or else the given one's, with the given baggage
    when no carrier key matches the baggage pattern, and it creates at most
    two objects. *)
Theorem extract_returns_frame (context : Context) (carrier : Carrier)
  (next : nat) :
  (forall h, firstValue (get getter carrier (_jaegerTraceHeader this)) = Some h ->
             JS.decodeURIComponent h <> Throw URIError) ->
  (forall key v, In (key, Some v) (baggageValuesOf getter carrier) ->
                 JS.decodeURIComponent v <> Throw URIError) ->
  exists c next',
    extract getter this context carrier next = Ok (c, next')
    /\ isTracingSuppressed c = isTracingSuppressed context
    /\ getSpanContext c
       = extractedSpanContext
           (firstValue (get getter carrier (_jaegerTraceHeader this))) context
    /\ (baggageValuesOf getter carrier = [] -> getBaggage c = getBaggage context)
    /\ (next <= next' <= next + 2)%nat.
Proof.
  intros Hh Hv; rewrite extract_unfold; unfold extractedSpanContext.
  assert (Hm : exists b',
             mergeBaggageValues (baggageValuesOf getter carrier)
               (match getBaggage context with
                | Some b => b
                | None => createBaggage
                end) = Ok b').
  { destruct (mergeBaggageValues (baggageValuesOf getter carrier) _)
      as [b'|[]] eqn:E; [eauto|].
    apply mergeBaggageValues_Throw_iff in E.
    destruct E as (k & v & Hin & Ht); destruct (Hv k v Hin Ht). }
  destruct Hm as [b' Hm]; rewrite Hm.
  destruct (firstValue (get getter carrier (_jaegerTraceHeader this)))
    as [h|]; [unfold bindA, liftR|unfold ret].
  - specialize (Hh h eq_refl).
    assert (Hd : deserializeSpanContext h <> Throw URIError)
      by (intros E; apply Hh; now apply deserializeSpanContext_Throw_iff).
    destruct (deserializeSpanContext h) as [[sc|]|[]];
      [| |contradiction]; unfold setSpanContext, ret, setBaggage;
      destruct (baggageValuesOf getter carrier);
      eexists; eexists; (split; [reflexivity|]);
      cbn [isTracingSuppressed getSpanContext getBaggage ctxSuppressTracing
             ctxSpanContext ctxBaggage];
      repeat split; auto; try discriminate; lia.
  - unfold setBaggage; destruct (baggageValuesOf getter carrier);
      eexists; eexists; (split; [reflexivity|]);
      cbn [isTracingSuppressed getSpanContext getBaggage ctxSuppressTracing
             ctxSpanContext ctxBaggage];
      repeat split; auto; try discriminate; lia.
Qed.

(** X8. Whenever [extract] returns, the keys of the given baggage are kept
    in place, new keys follow them, unique keys stay unique, and every new
    key is non-empty and does not start with a line terminator. *)
Theorem extract_baggage_keys (context : Context) (carrier : Carrier)
  (next : nat) (c : Context) (next' : nat) :
  extract getter this context carrier next = Ok (c, next') ->
  exists added,
    map fst (entriesOf (getBaggage c))
    = map fst (entriesOf (getBaggage context)) ++ added
    /\ (NoDup (map fst (entriesOf (getBaggage context))) ->
        NoDup (map fst (entriesOf (getBaggage c))))
    /\ (forall k, In k added -> capturableKey k = true).
Proof.
  intros H; apply extract_Ok_baggage in H.
  destruct H as [[_ ->] | (b' & Hm & ->)].
  - exists []; rewrite app_nil_r; split; [reflexivity|split; [auto|intros k []]].
  - destruct (mergeBaggageValues_keys _ _ _ Hm) as (added & Hk & Hnd & Hadd).
    exists added; split; [exact Hk|split; [exact Hnd|]].
    intros k Hin; destruct (Hadd k Hin) as [v Hv].
    exact (baggageValuesOf_key carrier k (Some v) Hv).
Qed.

(** X9. Among the matched headers with a defined value, the last one for a
    key decides: the returned baggage holds its percent-decoded value under
    that key, without metadata, whatever was stored there before. *)
Theorem extract_last_value_wins (context : Context) (carrier : Carrier)
  (next : nat) (c : Context) (next' : nat)
  (l1 l2 : list (jsstring * option jsstring)) (key v d : jsstring) :
  extract getter this context carrier next = Ok (c, next') ->
  baggageValuesOf getter carrier = l1 ++ (key, Some v) :: l2 ->
  (forall v', ~ In (key, Some v') l2) ->
  JS.decodeURIComponent v = Ok d ->
  exists b',
    getBaggage c = Some b' /\ getEntry b' key = Some (mkEntry d None).
Proof.
  intros H Hbv Hno Hd; apply extract_Ok_baggage in H.
  destruct H as [[E _] | (b' & Hm & Hb)].
  - rewrite Hbv in E; destruct l1; discriminate.
  - exists b'; split; [exact Hb|].
    rewrite Hbv in Hm.
    exact (mergeBaggageValues_last l1 l2 key v d _ b' Hno Hd Hm).
Qed.

(** X10. An entry of the given baggage whose key gets no defined value from
    the carrier is found unchanged, metadata included, in the returned
    baggage; a key in neither is in neither. *)
Theorem extract_keeps_other_entries (context : Context) (carrier : Carrier)
  (next : nat) (c : Context) (next' : nat) (key : jsstring) :
  extract getter this context carrier next = Ok (c, next') ->
  (forall v, ~ In (key, Some v) (baggageValuesOf getter carrier)) ->
  getEntry (entriesOf (getBaggage c)) key
  = getEntry (entriesOf (getBaggage context)) key.
Proof.
  intros H Hno; apply extract_Ok_baggage in H.
  destruct H as [[_ ->] | (b' & Hm & ->)]; [reflexivity|].
  exact (mergeBaggageValues_untouched _ key _ b' Hno Hm).
Qed.

(** X11. Of a header with several values only the first is read: two
    carriers with the same keys whose headers agree on their first value give
    the same result. *)
Theorem extract_first_value_only (context : Context)
  (carrier1 carrier2 : Carrier) (next : nat) :
  keys getter carrier1 = keys getter carrier2 ->
  (forall key, firstValue (get getter carrier1 key)
               = firstValue (get getter carrier2 key)) ->
  extract getter this context carrier1 next
  = extract getter this context carrier2 next.
Proof.
  intros Hk Hv.
  assert (E : baggageValuesOf getter carrier1 = baggageValuesOf getter carrier2).
  { unfold baggageValuesOf; rewrite Hk.
    apply map_ext; intros key; now rewrite Hv. }
  rewrite !extract_unfold, E, Hv; reflexivity.
Qed.

End ExtractFacts.

Lemma extract_returns_frame_witness :
  let context := mkContext 0 None None true in
  let carrier : ObjectCarrier :=
    [(lit "uber-trace-id", HString (lit "a:b:0:1"));
     (lit "uberctx-k", HString (lit "v%20w"))] in
  let this := newJaegerPropagator None in
  exists c next',
    extract defaultTextMapGetter this context carrier 1 = Ok (c, next')
    /\ isTracingSuppressed c = isTracingSuppressed context
    /\ getSpanContext c
       = extractedSpanContext
           (firstValue (get defaultTextMapGetter carrier
                          (_jaegerTraceHeader this))) context
    /\ (baggageValuesOf defaultTextMapGetter carrier = [] ->
        getBaggage c = getBaggage context)
    /\ (1 <= next' <= 1 + 2)%nat.
Proof.
  refine (extract_returns_frame ObjectCarrier defaultTextMapGetter
            (newJaegerPropagator None) (mkContext 0 None None true)
            [(lit "uber-trace-id", HString (lit "a:b:0:1"));
             (lit "uberctx-k", HString (lit "v%20w"))] 1 _ _).
  - intros h H; vm_compute in H; injection H as <-.
    intros E; vm_compute in E; discriminate E.
  - intros key v H; vm_compute in H.
    destruct H as [H|[]]; injection H as <- <-.
    intros E; vm_compute in E; discriminate E.
Defined.

Lemma extract_baggage_keys_witness :
  let context :=
    mkContext 0 None
      (Some [(lit "a", mkEntry (lit "old") (Some (lit "m")))]) false in
  let c :=
    mkContext 1 None
      (Some [(lit "a", mkEntry (lit "old") (Some (lit "m")));
             (lit "b", mkEntry (lit "x") None)]) false in
  exists added,
    map fst (entriesOf (getBaggage c))
    = map fst (entriesOf (getBaggage context)) ++ added
    /\ (NoDup (map fst (entriesOf (getBaggage context))) ->
        NoDup (map fst (entriesOf (getBaggage c))))
    /\ (forall k, In k added -> capturableKey k = true).
Proof.
  apply (extract_baggage_keys ObjectCarrier defaultTextMapGetter
           (newJaegerPropagator None)
           (mkContext 0 None
              (Some [(lit "a", mkEntry (lit "old") (Some (lit "m")))]) false)
           [(lit "uberctx-b", HString (lit "x"))] 1
           (mkContext 1 None
              (Some [(lit "a", mkEntry (lit "old") (Some (lit "m")));
                     (lit "b", mkEntry (lit "x") None)]) false)
           2).
  reflexivity.
Defined.

Lemma extract_last_value_wins_witness :
  let c := mkContext 1 None (Some [(lit "a", mkEntry (lit "2 ") None)]) false in
  exists b',
    getBaggage c = Some b'
    /\ getEntry b' (lit "a") = Some (mkEntry (lit "2 ") None).
Proof.
  apply (extract_last_value_wins ObjectCarrier defaultTextMapGetter
           (newJaegerPropagator None)
           (mkContext 0 None
              (Some [(lit "a", mkEntry (lit "old") (Some (lit "m")))]) false)
           [(lit "uberctx-a", HString (lit "1"));
            (lit "UBERCTX-a", HString (lit "2%20"))] 1
           (mkContext 1 None (Some [(lit "a", mkEntry (lit "2 ") None)]) false)
           2
           [(lit "a", Some (lit "1"))] [] (lit "a") (lit "2%20") (lit "2 "));
    [reflexivity|reflexivity|intros v' []|reflexivity].
Defined.

Lemma extract_keeps_other_entries_witness :
  let context :=
    mkContext 0 None
      (Some [(lit "a", mkEntry (lit "old") (Some (lit "m")))]) false in
  let c :=
    mkContext 1 None
      (Some [(lit "a", mkEntry (lit "old") (Some (lit "m")));
             (lit "b", mkEntry (lit "x") None)]) false in
  getEntry (entriesOf (getBaggage c)) (lit "a")
  = getEntry (entriesOf (getBaggage context)) (lit "a").
Proof.
  apply (extract_keeps_other_entries ObjectCarrier defaultTextMapGetter
           (newJaegerPropagator None)
           (mkContext 0 None
              (Some [(lit "a", mkEntry (lit "old") (Some (lit "m")))]) false)
           [(lit "uberctx-b", HString (lit "x"));
            (lit "uberctx-a", HUndefined)] 1
           (mkContext 1 None
              (Some [(lit "a", mkEntry (lit "old") (Some (lit "m")));
                     (lit "b", mkEntry (lit "x") None)]) false)
           2 (lit "a")); [reflexivity|].
  intros v H; vm_compute in H.
  destruct H as [H|[H|[]]]; discriminate H.
Defined.

Lemma extract_first_value_only_witness :
  let context := mkContext 0 None None false in
  extract defaultTextMapGetter (newJaegerPropagator None) context
    [(lit "uber-trace-id", HArray [lit "a:b:0:1"; lit "junk"])] 1
  = extract defaultTextMapGetter (newJaegerPropagator None) context
      [(lit "uber-trace-id", HString (lit "a:b:0:1"))] 1.
Proof.
  apply (extract_first_value_only ObjectCarrier defaultTextMapGetter
           (newJaegerPropagator None) (mkContext 0 None None false)
           [(lit "uber-trace-id", HArray [lit "a:b:0:1"; lit "junk"])]
           [(lit "uber-trace-id", HString (lit "a:b:0:1"))] 1);
    [reflexivity|].
  intros key; cbn [get defaultTextMapGetter objGet].
  destruct (eqstr (lit "uber-trace-id") key); reflexivity.
Defined.

(** ** The set calls of inject *)

Lemma applyWrites_recording (w log : WriteLog) :
  applyWrites recordingSetter w log = log ++ w.
Proof.
  revert log; induction w as [|[k v] w IH]; intros log.
  - cbn; now rewrite app_nil_r.
  - change (applyWrites recordingSetter ((k, v) :: w) log)
      with (applyWrites recordingSetter w (log ++ [(k, v)])).
    rewrite IH, <- app_assoc; reflexivity.
Qed.

Lemma injectEntries_log (entries : list (jsstring * BaggageEntry)) :
  forall log : WriteLog,
    exists extra,
      snd (injectEntries recordingSetter entries log) = log ++ extra
      /\ Forall (fun kv => exists key, fst kv = baggageHeaderName key) extra
      /\ (fst (injectEntries recordingSetter entries log) = Ok tt ->
          List.length extra = List.length entries).
Proof.
  induction entries as [|[key entry] entries IH]; intros log;
    cbn [injectEntries].
  - exists []; rewrite app_nil_r; repeat split; constructor.
  - destruct (JS.encodeURIComponent (value entry)) as [v|e].
    + cbn [set recordingSetter].
      destruct (IH (log ++ [(baggageHeaderName key, v)]))
        as (extra & Hs & Hf & Hl).
      exists ((baggageHeaderName key, v) :: extra).
      rewrite Hs, <- app_assoc; split; [reflexivity|split].
      * constructor; [exists key; reflexivity|exact Hf].
      * intros H; cbn [List.length]; now rewrite Hl.
    + exists []; rewrite app_nil_r; cbn [fst snd].
      split; [reflexivity|split; [constructor|discriminate]].
Qed.

(** X12. [inject] returns without a single call to the setter exactly when
    the context has no span context or is suppressed, and has no baggage
    entry. *)
Theorem inject_writes_nothing_iff (this : JaegerPropagator) (context : Context) :
  inject recordingSetter this context [] = (Ok tt, [])
  <-> (getSpanContext context = None \/ isTracingSuppressed context = true)
      /\ entriesOf (getBaggage context) = [].
Proof.
  rewrite inject_unfold, applyWrites_recording; cbn [app].
  split.
  - intros H.
    destruct (injectEntries_log (entriesOf (getBaggage context))
                (traceWrites this context)) as (extra & Hs & _ & Hl).
    rewrite H in Hs, Hl; cbn [fst snd] in Hs, Hl.
    symmetry in Hs; apply app_eq_nil in Hs; destruct Hs as [Htw ->].
    specialize (Hl eq_refl); cbn [List.length] in Hl.
    split.
    + unfold traceWrites in Htw.
      destruct (getSpanContext context); [|now left].
      destruct (isTracingSuppressed context); [now right|discriminate].
    + destruct (entriesOf (getBaggage context)); [reflexivity|discriminate].
  - intros [Htw ->]; cbn [injectEntries]; f_equal.
    unfold traceWrites; destruct Htw as [-> | ->]; [reflexivity|].
    destruct (getSpanContext context); reflexivity.
Qed.

(** X13. Every header [inject] sets is either the one [fields] lists or a
    baggage header, named "uberctx-" followed by a key. *)
Theorem inject_header_names (this : JaegerPropagator) (context : Context)
  (k v : jsstring) :
  In (k, v) (snd (inject recordingSetter this context [])) ->
  In k (fields this) \/ exists key, k = baggageHeaderName key.
Proof.
  rewrite inject_unfold, applyWrites_recording; cbn [app].
  destruct (injectEntries_log (entriesOf (getBaggage context))
              (traceWrites this context)) as (extra & -> & Hf & _).
  rewrite in_app_iff; intros [H|H].
  - left; unfold traceWrites in H.
    destruct (getSpanContext context); [|destruct H].
    destruct (isTracingSuppressed context); [destruct H|].
    destruct H as [[= <- _]|[]]; now left.
  - right; rewrite Forall_forall in Hf.
    destruct (Hf (k, v) H) as [key Hk]; exists key; exact Hk.
Qed.

Lemma inject_header_names_witness :
  In (lit "x-trace") (fields (newJaegerPropagator (Some (lit "x-trace"))))
  \/ exists key, lit "x-trace" = baggageHeaderName key.
Proof.
  apply (inject_header_names (newJaegerPropagator (Some (lit "x-trace")))
           (mkContext 0
              (Some (mkSpanContext (lit "a") (lit "b") false 1))
              (Some [(lit "k", mkEntry (lit "v") None)]) false)
           (lit "x-trace") (lit "a:b:0:01")).
  left; reflexivity.
Defined.

(** ** From inject to extract through a plain object *)

Lemma objGet_notin (o : ObjectCarrier) (key : jsstring) :
  ~ In key (map fst o) -> objGet o key = HUndefined.
Proof.
  induction o as [|[k x] o IH]; intros H; cbn [objGet]; [reflexivity|].
  cbn [map fst In] in H.
  rewrite eqstr_neq by tauto; apply IH; tauto.
Qed.

Lemma baggageWrites_names_match (entries : list (jsstring * BaggageEntry))
  (name : jsstring) :
  (forall k e, In (k, e) entries -> capturableKey k = true) ->
  In name (map fst (baggageWrites entries)) ->
  UBER_BAGGAGE_HEADER_REGEX_test name = true.
Proof.
  intros Hk Hin; unfold baggageWrites in Hin; rewrite map_map in Hin.
  apply in_map_iff in Hin; destruct Hin as ([k e] & <- & Hin); cbn [fst].
  rewrite test_baggageHeaderName; exact (Hk k e Hin).
Qed.

Lemma baggageValuesOf_cons_nomatch (h : jsstring) (x : HeaderValue)
  (o : ObjectCarrier) :
  UBER_BAGGAGE_HEADER_REGEX_test h = false ->
  baggageValuesOf defaultTextMapGetter ((h, x) :: o)
  = baggageValuesOf defaultTextMapGetter o.
Proof.
  intros Hh; unfold baggageValuesOf.
  cbn [keys get defaultTextMapGetter map fst filter]; rewrite Hh.
  apply map_ext_in; intros key Hin.
  apply filter_In in Hin; destruct Hin as [_ Ht].
  cbn [objGet]; rewrite eqstr_neq; [reflexivity|].
  intros ->; congruence.
Qed.

Lemma extract_baggage_step (receiving c0 : Context) (n0 : nat)
  (entries : list (jsstring * BaggageEntry)) :
  NoDup (map fst entries) ->
  (forall k e, In (k, e) entries ->
               JS.isWellFormed (value e) = true /\ validUnits (value e) = true) ->
  getBaggage receiving = None -> getBaggage c0 = None ->
  exists c n',
    match map (fun ke => (fst ke, Some (encodedValue (snd ke)))) entries with
    | [] => Ok (c0, n0)
    | _ :: _ =>
        match
          mergeBaggageValues
            (map (fun ke => (fst ke, Some (encodedValue (snd ke)))) entries)
            (match getBaggage receiving with
             | Some b => b
             | None => createBaggage
             end)
        with
        | Ok currentBaggage => setBaggage c0 currentBaggage n0
        | Throw e => Throw e
        end
    end = Ok (c, n')
    /\ getSpanContext c = getSpanContext c0
    /\ isTracingSuppressed c = isTracingSuppressed c0
    /\ entriesOf (getBaggage c) = plainEntries entries.
Proof.
  intros Hnd Hwf Hb Hb0; rewrite Hb.
  rewrite mergeBaggageValues_encoded; [|exact Hnd|intros k _ []|exact Hwf].
  destruct entries as [|ke entries']; cbn [map].
  - exists c0, n0; rewrite Hb0; repeat split.
  - unfold setBaggage; eexists; eexists; repeat split.
Qed.

(** X14. A context sent with [inject] into an empty plain object and read
    back with [extract] into a context without baggage: when the trace header
    name is neither "__proto__" (which a plain object does not store) nor
    itself a baggage header name, the identifiers are
    hexadecimal, and the baggage keys and values are ones the format can
    carry, the receiver's context has the sender's baggage entries (values
    only) and, unless the sender was suppressed or had no span context, the
    sender's span context marked remote with its flags as the wire keeps
    them. *)
Theorem inject_extract_roundtrip (this : JaegerPropagator)
  (context receiving : Context) (next : nat) :
  UBER_BAGGAGE_HEADER_REGEX_test (_jaegerTraceHeader this) = false ->
  eqstr (_jaegerTraceHeader this) (lit "__proto__") = false ->
  (forall sc, getSpanContext context = Some sc ->
              List.length (traceId sc) = 32%nat
              /\ forallb JS.isHexDigit (traceId sc) = true
              /\ forallb JS.isHexDigit (spanId sc) = true) ->
  NoDup (map fst (entriesOf (getBaggage context))) ->
  (forall k e, In (k, e) (entriesOf (getBaggage context)) ->
               capturableKey k = true
               /\ JS.isWellFormed (value e) = true
               /\ validUnits (value e) = true) ->
  getBaggage receiving = None ->
  exists carrier c next',
    inject defaultTextMapSetter this context [] = (Ok tt, carrier)
    /\ extract defaultTextMapGetter this receiving carrier next = Ok (c, next')
    /\ getSpanContext c
       = match getSpanContext context with
         | Some sc =>
             if isTracingSuppressed context then getSpanContext receiving
             else Some (mkSpanContext (traceId sc) (spanId sc) true
                          (roundTripFlags (traceFlags sc)))
         | None => getSpanContext receiving
         end
    /\ isTracingSuppressed c = isTracingSuppressed receiving
    /\ entriesOf (getBaggage c) = plainEntries (entriesOf (getBaggage context)).
Proof.
  intros Hh Hproto Hsc Hnd Hall Hrb.
  set (entries := entriesOf (getBaggage context)) in *.
  assert (Hcap : forall k e, In (k, e) entries -> capturableKey k = true)
    by (intros k e Hin; apply (Hall k e Hin)).
  assert (Hwf : forall k e, In (k, e) entries ->
                            JS.isWellFormed (value e) = true)
    by (intros k e Hin; apply (Hall k e Hin)).
  assert (Hwv : forall k e, In (k, e) entries ->
                  JS.isWellFormed (value e) = true
                  /\ validUnits (value e) = true)
    by (intros k e Hin; split; apply (Hall k e Hin)).
  assert (Hnot : ~ In (_jaegerTraceHeader this)
                   (map fst (baggageWrites entries))).
  { intros Hin; apply (baggageWrites_names_match entries _ Hcap) in Hin.
    congruence. }
  assert (Hnot' : ~ In (_jaegerTraceHeader this)
                    (map fst (objectOf (baggageWrites entries)))).
  { unfold objectOf; rewrite map_map; exact Hnot. }
  assert (Hinj : inject defaultTextMapSetter this context []
                 = (Ok tt,
                    objectOf (traceWrites this context ++ baggageWrites entries))).
  { rewrite inject_unfold; fold entries.
    rewrite injectEntries_wellFormed by exact Hwf.
    assert (Htw : applyWrites defaultTextMapSetter (traceWrites this context) []
                  = objectOf (traceWrites this context)).
    { unfold traceWrites; destruct (getSpanContext context);
        [destruct (isTracingSuppressed context)|]; try reflexivity.
      unfold applyWrites; cbn [fold_left fst snd set defaultTextMapSetter].
      rewrite Hproto; reflexivity. }
    rewrite Htw, applyWrites_object;
      [unfold objectOf; now rewrite map_app
      |now apply baggageWrites_NoDup
      |
      |apply baggageWrites_ordinary].
    intros k Hk Hin; unfold traceWrites in Hin.
    destruct (getSpanContext context); [|destruct Hin].
    destruct (isTracingSuppressed context); [destruct Hin|].
    destruct Hin as [<-|[]]; contradiction. }
  exists (objectOf (traceWrites this context ++ baggageWrites entries)).
  rewrite Hinj; unfold traceWrites in *.
  destruct (getSpanContext context) as [sc|] eqn:Esc;
    [destruct (isTracingSuppressed context) eqn:Esup|].
  - (* suppressed: only baggage headers *)
    cbn [app].
    destruct (extract_baggage_step receiving receiving next entries
                Hnd Hwv Hrb Hrb) as (c & n' & Hstep & Hs & Hp & Hb).
    exists c, n'; split; [reflexivity|].
    rewrite extract_unfold; cbn [get defaultTextMapGetter].
    rewrite (objGet_notin _ _ Hnot').
    cbn [firstValue]; unfold ret.
    rewrite (baggageValuesOf_object entries Hnd Hcap).
    split; [exact Hstep|auto].
  - (* trace header and baggage headers *)
    destruct (Hsc sc eq_refl) as (Hlen & Ht & Hs).
    destruct (deserialize_serialized sc Hlen Ht Hs) as [_ Hd].
    cbn [app objectOf map fst snd].
    fold (objectOf (baggageWrites entries)).
    set (c0 := mkContext next
                 (Some (mkSpanContext (traceId sc) (spanId sc) true
                          (roundTripFlags (traceFlags sc))))
                 (ctxBaggage receiving) (ctxSuppressTracing receiving)).
    destruct (extract_baggage_step receiving c0 (S next) entries
                Hnd Hwv Hrb Hrb) as (c & n' & Hstep & Hs' & Hp & Hb).
    exists c, n'; split; [reflexivity|].
    rewrite extract_unfold; cbn [get defaultTextMapGetter objGet].
    rewrite eqstr_refl; cbn [firstValue]; unfold bindA, liftR.
    rewrite Hd; unfold setSpanContext; fold c0.
    rewrite (baggageValuesOf_cons_nomatch _ _ _ Hh).
    rewrite (baggageValuesOf_object entries Hnd Hcap).
    split; [exact Hstep|auto].
  - cbn [app].
    destruct (extract_baggage_step receiving receiving next entries
                Hnd Hwv Hrb Hrb) as (c & n' & Hstep & Hs & Hp & Hb).
    exists c, n'; split; [reflexivity|].
    rewrite extract_unfold; cbn [get defaultTextMapGetter].
    rewrite (objGet_notin _ _ Hnot').
    cbn [firstValue]; unfold ret.
    rewrite (baggageValuesOf_object entries Hnd Hcap).
    split; [exact Hstep|auto].
Qed.

Lemma inject_extract_roundtrip_witness :
  let sc := mkSpanContext (lit "d4cda95b652f4a1592b449d5929fda1b")
                          (lit "6e0c63257de34c92") false 3 in
  let bag := [(lit "key1", mkEntry (lit "value1") (Some (lit "meta")));
              (lit "key2", mkEntry (lit "value 2/$") None)] in
  let context := mkContext 0 (Some sc) (Some bag) false in
  let receiving := mkContext 5 None None true in
  let this := newJaegerPropagator None in
  exists carrier c next',
    inject defaultTextMapSetter this context [] = (Ok tt, carrier)
    /\ extract defaultTextMapGetter this receiving carrier 6 = Ok (c, next')
    /\ getSpanContext c
       = Some (mkSpanContext (lit "d4cda95b652f4a1592b449d5929fda1b")
                             (lit "6e0c63257de34c92") true 1)
    /\ isTracingSuppressed c = true
    /\ entriesOf (getBaggage c)
       = [(lit "key1", mkEntry (lit "value1") None);
          (lit "key2", mkEntry (lit "value 2/$") None)].
Proof.
  refine (inject_extract_roundtrip (newJaegerPropagator None)
            (mkContext 0
               (Some (mkSpanContext (lit "d4cda95b652f4a1592b449d5929fda1b")
                                    (lit "6e0c63257de34c92") false 3))
               (Some [(lit "key1", mkEntry (lit "value1") (Some (lit "meta")));
                      (lit "key2", mkEntry (lit "value 2/$") None)])
               false)
            (mkContext 5 None None true) 6 _ _ _ _ _ _).
  - reflexivity.
  - reflexivity.
  - intros sc H; cbn [getSpanContext ctxSpanContext] in H.
    injection H as <-; repeat split.
  - repeat constructor; cbn [In map fst]; intros H;
      repeat (destruct H as [H|H]; [discriminate H|]); exact H.
  - intros k e H; cbn [entriesOf getBaggage ctxBaggage getAllEntries In] in H.
    destruct H as [E|[E|[]]]; injection E as <- <-; repeat split.
  - reflexivity.
Defined.

(** ** Constructor and fields *)

(** X15. [fields] always lists exactly one, non-empty header name: the custom
    one when it is given and not empty, "uber-trace-id" when it is absent or
    the empty string. *)
Theorem constructor_fields (customTraceHeader : option jsstring) :
  exists h,
    fields (newJaegerPropagator customTraceHeader) = [h]
    /\ h <> []
    /\ (forall c, customTraceHeader = Some c -> c <> [] -> h = c)
    /\ (customTraceHeader = None \/ customTraceHeader = Some [] ->
        h = lit "uber-trace-id").
Proof.
  destruct customTraceHeader as [[|c r]|]; eexists;
    (split; [reflexivity|]); (split; [discriminate|]); split;
    try (intros c' [= <-] H; (reflexivity || contradiction));
    try (intros c' H; discriminate H);
    try (intros [H|H]; discriminate H); auto.
Qed.

(** C6 fails on a trace header that does not percent-decode: it is present,
    it fails to decode, no carrier key matches the baggage pattern, and
    [extract] throws instead of returning the context it was given. *)
Lemma extract_identity_counterexample :
  let carrier : ObjectCarrier := [(lit "uber-trace-id", HString (lit "%"))] in
  let context := mkContext 0 None None false in
  firstValue (get defaultTextMapGetter carrier (lit "uber-trace-id"))
  = Some (lit "%")
  /\ (forall sc, deserializeSpanContext (lit "%") <> Ok (Some sc))
  /\ filter UBER_BAGGAGE_HEADER_REGEX_test (keys defaultTextMapGetter carrier)
     = []
  /\ extract defaultTextMapGetter (newJaegerPropagator None) context carrier 1
     = Throw URIError
  /\ extract defaultTextMapGetter (newJaegerPropagator None) context carrier 1
     <> Ok (context, 1%nat).
Proof.
  repeat split; try reflexivity; intros; discriminate.
Qed.

Lemma core_throws_exactly_on_URIError_witness :
  let sc := mkSpanContext (lit "d4cda95b652f4a1592b449d5929fda1b")
                          (lit "6e0c63257de34c92") false 1 in
  let context :=
    mkContext 0 (Some sc)
      (Some [(lit "a", mkEntry (lit "x") None);
             (lit "b", mkEntry [0xD800] None);
             (lit "c", mkEntry (lit "y") None)]) false in
  inject defaultTextMapSetter (newJaegerPropagator None) context []
  = (Throw URIError,
     [(lit "uber-trace-id",
       HString (lit "d4cda95b652f4a1592b449d5929fda1b:6e0c63257de34c92:0:01"));
      (lit "uberctx-a", HString (lit "x"))]).
Proof.
  refine (proj1 (proj2 (proj2 (proj2
            (core_throws_exactly_on_URIError ObjectCarrier
               defaultTextMapGetter defaultTextMapSetter
               (newJaegerPropagator None)))))
            (mkContext 0
               (Some (mkSpanContext (lit "d4cda95b652f4a1592b449d5929fda1b")
                                    (lit "6e0c63257de34c92") false 1))
               (Some [(lit "a", mkEntry (lit "x") None);
                      (lit "b", mkEntry [0xD800] None);
                      (lit "c", mkEntry (lit "y") None)]) false)
            [] [(lit "a", mkEntry (lit "x") None)] (lit "b")
            (mkEntry [0xD800] None) [(lit "c", mkEntry (lit "y") None)]
            eq_refl _ eq_refl).
  intros k e [E|[]]; injection E as <- <-; reflexivity.
Defined.

(** ** Plain objects *)

Example object_key_order :
  applyWrites defaultTextMapSetter
    [(lit "b", lit "1"); (lit "10", lit "x"); (lit "2", lit "y");
     (lit "a", lit "z"); (lit "01", lit "w"); (lit "b", lit "2")] []
  = [(lit "2", HString (lit "y")); (lit "10", HString (lit "x"));
     (lit "b", HString (lit "2")); (lit "a", HString (lit "z"));
     (lit "01", HString (lit "w"))].
Proof. reflexivity. Qed.

Example object_proto_ignored :
  applyWrites defaultTextMapSetter
    [(lit "__proto__", lit "x"); (lit "k", lit "v")] []
  = [(lit "k", HString (lit "v"))].
Proof. reflexivity. Qed.
